(** * Pegmatite: AST construction from the reduction stack

    A shallow embedding of [ast.hh] and [ast.cc]: the lightweight RTTI
    replacement ([PEGMATITE_RTTI], [isa], [get_as]), the reduction stack,
    the shared claiming routine [popFromASTStack], the member slots
    [ASTPtr], [ASTChild] and [ASTList], [ASTContainer], the [BindAST]
    reduction callback and the two top-level [parse] entry points.

    Conventions.  A [std::vector] is a [list] whose last element is
    [back()].  A [std::unique_ptr] is an [option].  Code that threads the
    stack and the error reporter runs in the monad [Op]; a failed C
    [assert], and a member call through a null pointer, end the run with
    [Aborted]. *)

From Stdlib Require Import String Ascii DecimalString.
From Stdlib Require Import List Bool Arith NArith Lia.
From Equations Require Import Equations.
From Equations.Prop Require Import Logic.
Import ListNotations.

Open Scope list_scope.

(** ** Input ranges *)

(** Modelled from the spec: [InputRange] is declared in [parser.hh], which
    is not part of the sources at hand.  Only the ordering of its [begin()]
    and [end()] positions is used by the code below, so a position is the
    offset of the iterator in the input. *)
Record InputRange : Type := mkRange { range_begin : nat; range_end : nat }.

(** The guard shared by [popFromASTStack] and [ASTList::construct]:
    [(childRange.begin() < r.begin()) || (childRange.end() > r.end())]. *)
Definition outside (childRange r : InputRange) : bool :=
  (range_begin childRange <? range_begin r) ||
  (range_end r <? range_end childRange).

(** ** The RTTI replacement *)

(** The value of [classKind()]: the address of a function-local
    [static char]. *)
Definition Kind : Type := nat.

(** A class of the AST hierarchy: [ASTNode] itself, or a class whose
    definition ends with [PEGMATITE_RTTI(thisclass, superclass)].  [id] is
    the address of the static [thisclass ## id] of its [classKind()]. *)
Inductive ClassDecl : Type :=
| ASTNode_class
| PEGMATITE_RTTI (thisclass : string) (id : Kind) (superclass : ClassDecl).

(** Address of [ASTNodeid], the static of [ASTNode::classKind()]. *)
Definition ASTNodeid : Kind := 0.

Definition classKind (c : ClassDecl) : Kind :=
  match c with
  | ASTNode_class => ASTNodeid
  | PEGMATITE_RTTI _ id _ => id
  end.

(** [virtual bool isa(char *x)], resolved on the dynamic class [c]:
    [ASTNode::isa] compares with its own kind, the macro's override adds
    [superclass::isa(x)]. *)
Fixpoint isa (c : ClassDecl) (x : Kind) : bool :=
  match c with
  | ASTNode_class => x =? classKind ASTNode_class
  | PEGMATITE_RTTI _ _ superclass =>
      (x =? classKind c) || isa superclass x
  end.

(** [demangle(typeid(T).name())]: the qualified name of the class, as
    the diagnostics of [popFromASTStack] print it. *)
Definition typeid_name (c : ClassDecl) : string :=
  match c with
  | ASTNode_class => "pegmatite::ASTNode"
  | PEGMATITE_RTTI thisclass _ _ => thisclass
  end.

(** The identifiers of a qualified name, [a::b::c] giving [a], [b] and
    [c]; [scope] is the identifier being read. *)
Fixpoint split_scopes (name scope : string) : list string :=
  match name with
  | EmptyString => [scope]
  | String ":" (String ":" rest) => scope :: split_scopes rest EmptyString
  | String c rest =>
      split_scopes rest (scope ++ String c EmptyString)%string
  end.

(** An identifier in a mangled name: its length in decimal, then the
    identifier. *)
Definition source_name (identifier : string) : string :=
  (NilEmpty.string_of_uint (Nat.to_uint (String.length identifier))
     ++ identifier)%string.

(** [typeid(T).name()] itself, before [demangle]: the name of the class
    type under the Itanium C++ ABI, the one whose [abi::__cxa_demangle]
    the code calls.  An unscoped class is its source name, [4Term]; a
    class in a namespace is a nested name, [N9pegmatite7ASTNodeE]. *)
Definition typeid_raw_name (c : ClassDecl) : string :=
  match split_scopes (typeid_name c) EmptyString with
  | [identifier] => source_name identifier
  | identifiers =>
      ("N" ++ String.concat EmptyString (map source_name identifiers)
           ++ "E")%string
  end.

(** The two classes [ast.hh] declares with the macro:
    [PEGMATITE_RTTI(ASTContainer, ASTNode)] and
    [PEGMATITE_RTTI(ASTMember, ASTNode)]. *)
Definition ASTContainer_class : ClassDecl :=
  PEGMATITE_RTTI "pegmatite::ASTContainer" 1 ASTNode_class.

Definition ASTMember_class : ClassDecl :=
  PEGMATITE_RTTI "pegmatite::ASTMember" 2 ASTNode_class.

(** The inheritance chain of a class, from the class itself up to
    [ASTNode]. *)
Fixpoint ancestors (c : ClassDecl) : list ClassDecl :=
  match c with
  | ASTNode_class => [ASTNode_class]
  | PEGMATITE_RTTI _ _ superclass => c :: ancestors superclass
  end.

(** The classes of a program have pairwise distinct [classKind()] statics:
    two function-local statics of different functions never share an
    address. *)
Definition distinct_kinds (program : list ClassDecl) : Prop :=
  forall a b, In a program -> In b program ->
              classKind a = classKind b -> a = b.

(** ** Nodes, member slots and the stack *)

(** A heap object seen through an [ASTNode*]: its dynamic class and its
    state.  A leaf ([ASTString]) carries the covered text; a container
    carries its member fields.  [ASTPtr<T, Optional>] holds a
    [unique_ptr<T>], [ASTChild<T>] is itself a [T] and holds the state of
    one, [ASTList<T>] holds a [std::list<unique_ptr<T>>]. *)
Inductive ASTNode : Type :=
| Object (dyn : ClassDecl) (state : Body)
with Body : Type :=
| Text (s : string)
| Fields (fs : list ASTMember)
with ASTMember : Type :=
| ASTPtr (T : ClassDecl) (Optional : bool) (ptr : option ASTNode)
| ASTChild (T : ClassDecl) (self : Body)
| ASTList (T : ClassDecl) (items : list ASTNode).

Definition dynamic_class (n : ASTNode) : ClassDecl :=
  match n with Object dyn _ => dyn end.

Definition state_of (n : ASTNode) : Body :=
  match n with Object _ state => state end.

(** [template <class T> bool isa()]. *)
Definition isa_T (T : ClassDecl) (this : ASTNode) : bool :=
  isa (dynamic_class this) (classKind T).

(** [template <class T> T* get_as()]:
    [t ? (isa<T>() ? static_cast<T*>(this) : nullptr) : nullptr]. *)
Definition get_as (T : ClassDecl) (this : option ASTNode) : option ASTNode :=
  match this with
  | Some t => if isa_T T t then Some t else None
  | None => None
  end.

(** [typedef std::pair<const InputRange, std::unique_ptr<ASTNode>>
    ASTStackEntry].  Every entry is created by [BindAST] around a fresh
    object, so the pointer is never null. *)
Definition ASTStackEntry : Type := (InputRange * ASTNode)%type.

(** [typedef std::vector<ASTStackEntry> ASTStack]. *)
Definition ASTStack : Type := list ASTStackEntry.

(** [v.empty()], [v.back()] and [v.pop_back()] of [std::vector]. *)
Definition empty {A} (v : list A) : bool :=
  match v with [] => true | _ => false end.

Definition back {A} (v : list A) : option A :=
  match rev v with [] => None | e :: _ => Some e end.

Definition pop_back {A} (v : list A) : list A := removelast v.

(** [p == nullptr], also written [!p]. *)
Definition is_null {A} (p : option A) : bool :=
  match p with None => true | Some _ => false end.

(** ** The monad of the claiming code *)

(** What a claiming operation can touch: the shared stack, the messages
    handed to the [ErrorReporter] callback, and the lines written to
    [stderr]. *)
Record World : Type := mkWorld {
  stack : ASTStack;
  reported : list (InputRange * string);
  stderr : list string
}.

(** A run either finishes with a value and a world, or dies, leaving the
    world as it was at that point: on a failed [assert], or on a member
    call through a null pointer, which the language leaves undefined. *)
Inductive Outcome (A : Type) : Type :=
| Done (a : A) (w : World)
| Aborted (assertion : string) (w : World).
Arguments Done {A} a w.
Arguments Aborted {A} assertion w.

Definition Op (A : Type) : Type := World -> Outcome A.

Definition ret {A} (a : A) : Op A := fun w => Done a w.

Definition bind {A B} (c : Op A) (k : A -> Op B) : Op B :=
  fun w => match c w with
           | Done a w' => k a w'
           | Aborted s w' => Aborted s w'
           end.

Declare Scope op_scope.
Delimit Scope op_scope with op.
Notation "x <- c ;; k" := (bind c (fun x => k))
  (at level 61, c at next level, right associativity) : op_scope.
Notation "c ;;; k" := (bind c (fun _ => k))
  (at level 61, right associativity) : op_scope.
Open Scope op_scope.

(** [p->member(...)] on a pointer: the object the call is made on.  The
    call through a null pointer is undefined; the run ends there. *)
Definition arrow {A} (p : option A) (call : string) : Op A :=
  fun w => match p with
           | Some this => Done this w
           | None => Aborted call w
           end.

(** [assert(cond && "message")]. *)
Definition assert_ (cond : bool) (message : string) : Op unit :=
  fun w => if cond then Done tt w else Aborted message w.

(** The world with another stack, with one more reported message, with
    more lines on [stderr]. *)
Definition with_stack (st : ASTStack) (w : World) : World :=
  mkWorld st (reported w) (stderr w).

Definition with_report (range : InputRange) (message : string) (w : World)
  : World :=
  mkWorld (stack w) (reported w ++ [(range, message)]) (stderr w).

Definition with_stderr (lines : list string) (w : World) : World :=
  mkWorld (stack w) (reported w) (stderr w ++ lines).

Definition get_stack : Op ASTStack := fun w => Done (stack w) w.

Definition set_stack (st : ASTStack) : Op unit :=
  fun w => Done tt (with_stack st w).

(** [err(range, message)]. *)
Definition err (range : InputRange) (message : string) : Op unit :=
  fun w => Done tt (with_report range message w).

(** [fprintf(stderr, ...)] of one line. *)
Definition fprintf_stderr (line : string) : Op unit :=
  fun w => Done tt (with_stderr [line] w).

(** ** The shared claiming routine *)

(** The two diagnostics of [popFromASTStack<T, Optional>]. *)
Definition non_optional_expected (T : ClassDecl) : string :=
  ("Non-optional " ++ typeid_name T ++ " expected.")%string.

Definition expected_found (T : ClassDecl) (node : ASTNode) : string :=
  ("Expected " ++ typeid_name T ++ ", found "
     ++ typeid_name (dynamic_class node))%string.

(** [popFromASTStack<T, Optional>(r, st, err)]. *)
Definition popFromASTStack (T : ClassDecl) (Optional : bool)
    (r : InputRange) : Op (bool * option ASTNode) :=
  st <- get_stack ;;
  if empty st && Optional then ret (false, None) else
  assert_ (negb (empty st)) "Stack must not be empty" ;;;
  match back st with
  | None => ret (false, None)
  | Some e =>
      let childRange := fst e in
      if outside childRange r then
        if Optional then ret (true, None) else
        err childRange (non_optional_expected T) ;;;
        ret (false, None)
      else
        let node := snd e in
        let obj := get_as T (Some node) in
        if is_null obj && negb Optional then
          err childRange (expected_found T node) ;;;
          ret (false, None)
        else if Optional && is_null obj then
          ret (false, None)
        else
          set_stack (pop_back st) ;;;
          ret (true, obj)
  end.

(** ** Member slots *)

(** The pure virtual [ASTNode::construct(r, st, err)]: an object mutates
    itself from the world and answers with a [bool]. *)
Class Constructible (X : Type) : Type :=
  construct : InputRange -> X -> Op (bool * X).

(** [ASTPtr<T, Optional>::construct]: the [unique_ptr] base of the slot is
    swapped with the popped pointer when [popped.first] holds. *)
Definition ASTPtr_construct (T : ClassDecl) (Optional : bool)
    (r : InputRange) (this : option ASTNode) : Op (bool * option ASTNode) :=
  popped <- popFromASTStack T Optional r ;;
  let this := if fst popped then snd popped else this in
  ret (fst popped, this).

(** [ASTChild<T>::construct]: a required claim, then
    [this->T::operator=(std::move( *popped.second.get()))]. *)
Definition ASTChild_construct (T : ClassDecl) (r : InputRange)
    (this : Body) : Op (bool * Body) :=
  popped <- popFromASTStack T false r ;;
  let this :=
    if fst popped then
      match snd popped with Some obj => state_of obj | None => this end
    else this in
  ret (fst popped, this).

(** The [for(;;)] loop of [ASTList<T>::construct] over the stack [st] and
    the list under construction.  Each round pops one entry, so the loop
    is defined by recursion on the height of the stack. *)
Equations? ASTList_loop (T : ClassDecl) (r : InputRange) (st : ASTStack)
    (this : list ASTNode) : bool * ASTStack * list ASTNode
    by wf (length st) lt :=
  ASTList_loop T r st this with inspect (back st) := {
    | exist _ None _ => (true, st, this) ;
    | exist _ (Some e) Hback with outside (fst e) r := {
        | true => (true, st, this) ;
        | false with get_as T (Some (snd e)) := {
            | None => (false, st, this) ;
            | Some obj =>
                ASTList_loop T r (pop_back st) (obj :: this) } } }.
Proof.
  destruct st as [|first rest]; [discriminate|].
  unfold pop_back.
  rewrite (app_removelast_last first (l := first :: rest)) at 2
    by discriminate.
  rewrite length_app. simpl. lia.
Qed.

(** [ASTList<T>::construct]. *)
Definition ASTList_construct (T : ClassDecl) (r : InputRange)
    (this : list ASTNode) : Op (bool * list ASTNode) :=
  st <- get_stack ;;
  let '(result, st', this') := ASTList_loop T r st this in
  set_stack st' ;;;
  ret (result, this').

(** A call through an [ASTMember*]: virtual dispatch on the slot. *)
#[export] Instance ASTMember_construct : Constructible ASTMember :=
  fun r member =>
    match member with
    | ASTPtr T Optional ptr =>
        res <- ASTPtr_construct T Optional r ptr ;;
        ret (fst res, ASTPtr T Optional (snd res))
    | ASTChild T self =>
        res <- ASTChild_construct T r self ;;
        ret (fst res, ASTChild T (snd res))
    | ASTList T items =>
        res <- ASTList_construct T r items ;;
        ret (fst res, ASTList T (snd res))
    end.

(** ** Containers *)

Section Container.

(** The member slots of a container: any class with a [construct]. *)
Context {M : Type} {M_construct : Constructible M}.

(** An [ASTContainer] subclass object: its declared member fields, in
    declaration order, and [members], the vector of pointers to them.  A
    pointer to a field is the position of the field. *)
Record ASTContainer : Type := mkContainer {
  fields : list M;
  members : list nat
}.

(** [ASTContainer::ASTContainer()]: the object becomes [current]; no
    field has been constructed yet. *)
Definition ASTContainer_new : ASTContainer := mkContainer [] [].

(** [ASTMember::ASTMember()], run for the next declared field:
    [current->members.push_back(this)]. *)
Definition ASTMember_new (field : M) (current : ASTContainer)
  : ASTContainer :=
  mkContainer (fields current ++ [field])
              (members current ++ [length (fields current)]).

(** [new T()] for a container class [T]: the base constructor, then the
    constructors of the declared fields in declaration order. *)
Definition new_container (declared : list M) : ASTContainer :=
  fold_left (fun current field => ASTMember_new field current)
            declared ASTContainer_new.

(** A write through a member pointer. *)
Fixpoint assign (fs : list M) (member : nat) (m : M) : list M :=
  match fs, member with
  | [], _ => []
  | _ :: rest, 0 => m :: rest
  | f :: rest, S k => f :: assign rest k m
  end.

(** The loop of [ASTContainer::construct].  [it] is the base position of
    the reverse iterator: [members.rbegin()] has base [members.size()],
    [members.rend()] has base [0], and [*it] is the element just before
    the base.  [success |= member->construct(r, st, err)]. *)
Fixpoint construct_loop (r : InputRange) (members : list nat) (it : nat)
    (fs : list M) (success : bool) : Op (bool * list M) :=
  match it with
  | 0 => ret (success, fs)
  | S next =>
      match nth_error members next with
      | None => ret (success, fs)
      | Some member =>
          match nth_error fs member with
          | None => Aborted "dangling ASTMember pointer"
          | Some m =>
              res <- construct r m ;;
              construct_loop r members next
                             (assign fs member (snd res))
                             (success || fst res)
          end
      end
  end.

(** [ASTContainer::construct]: the loop, then [members.clear()]. *)
Definition ASTContainer_construct (r : InputRange) (this : ASTContainer)
  : Op (bool * ASTContainer) :=
  res <- construct_loop r (members this) (length (members this))
                        (fields this) true ;;
  ret (fst res, mkContainer (snd res) []).

(** The claiming pass in the words of the specification: each slot of
    [order] is asked once, one after the other, to claim from the
    stack.  The result lists the slots asked with their answers, in the
    order of the calls. *)
Fixpoint claim_in_order (r : InputRange) (order : list nat) (fs : list M)
  : Op (list (nat * bool) * list M) :=
  match order with
  | [] => ret ([], fs)
  | member :: later =>
      match nth_error fs member with
      | None => Aborted "dangling ASTMember pointer"
      | Some m =>
          res <- construct r m ;;
          rest <- claim_in_order r later (assign fs member (snd res)) ;;
          ret ((member, fst res) :: fst rest, snd rest)
      end
  end.

End Container.

Arguments ASTContainer M : clear implicits.

#[export] Instance ASTContainer_Constructible {M} `{Constructible M}
  : Constructible (ASTContainer M) := ASTContainer_construct.

(** ** Binding a rule to a node class *)

(** What [BindAST<T>] asks of [T]: a default constructor, the [construct]
    method, and the conversion of a [T*] to an [ASTNode*]. *)
Class ASTNodeSubclass (X : Type) : Type := {
  subclass_construct :: Constructible X;
  new_T : X;
  as_ASTNode : X -> ASTNode
}.

(** The callback registered by [BindAST<T>::BindAST], called by the
    grammar engine when the rule has matched [range]; the user data [d] is
    the stack. *)
Definition BindAST (X : Type) `{ASTNodeSubclass X} (range : InputRange)
  : Op bool :=
  let obj := new_T in
  res <- construct range obj ;;
  if negb (fst res) then ret false else
  st <- get_stack ;;
  set_stack (st ++ [(range, as_ASTNode (snd res))]) ;;;
  ret true.
Arguments BindAST X {_} range _.

(** What becomes of the object the callback got from [new T()], a raw
    pointer [obj]: it is handed to the [std::unique_ptr<ASTNode>] of the
    pushed entry, or it is deleted, or the pointer goes out of scope with
    the object still allocated. *)
Inductive Fate (X : Type) : Type :=
| owned_by_the_entry
| deleted
| never_deleted (obj : X).
Arguments owned_by_the_entry {X}.
Arguments deleted {X}.
Arguments never_deleted {X} obj.

(** The same callback, with the fate of [obj] at each [return]: the
    lambda has no [delete]. *)
Definition BindAST_lambda (X : Type) `{ASTNodeSubclass X}
    (range : InputRange) : Op (bool * Fate X) :=
  let obj := new_T in
  res <- construct range obj ;;
  if negb (fst res) then ret (false, never_deleted (snd res)) else
  st <- get_stack ;;
  set_stack (st ++ [(range, as_ASTNode (snd res))]) ;;;
  ret (true, owned_by_the_entry).
Arguments BindAST_lambda X {_} range _.

(** ** The top-level driver *)

(** The lines written by [fprintf(stderr, "[%d] %s\n", i++,
    typeid( *val).name())] for the entries of the stack: the name is
    printed as [typeid] gives it, without [demangle]. *)
Definition residual_line (i : nat) (entry : ASTStackEntry) : string :=
  ("[" ++ NilEmpty.string_of_uint (Nat.to_uint i) ++ "] "
       ++ typeid_raw_name (dynamic_class (snd entry))
       ++ String (ascii_of_nat 10) "")%string.

Fixpoint dump (st : ASTStack) (i : nat) : Op unit :=
  match st with
  | [] => ret tt
  | entry :: rest =>
      fprintf_stderr (residual_line i entry) ;;; dump rest (S i)
  end.

(** The lines [dump] writes for a stack: one per entry, numbered from
    [i]. *)
Definition residual_lines (st : ASTStack) (i : nat) : list string :=
  map (fun ie => residual_line (fst ie) (snd ie))
      (combine (seq i (length st)) st).

Section Parse.

(** Modelled from the spec: the six-argument [parse] of [parser.hh] runs
    the grammar engine over the input with the stack as user data and
    answers whether the input matched.  It is a parameter here; the
    reduction callbacks it calls are the [BindAST] ones. *)
Variable engine : Op bool.

(** [std::unique_ptr<ASTNode> parse(input, g, ws, err, d)]. *)
Definition parse : Op (option ASTNode) :=
  set_stack [] ;;;
  matched <- engine ;;
  if negb matched then ret None else
  st <- get_stack ;;
  (if 1 <? length st then dump st 0 else ret tt) ;;;
  assert_ (length st =? 1) "st.size() == 1" ;;;
  ret (option_map snd (nth_error st 0)).

(** [template <class T> bool ASTParserDelegate::parse(i, g, ws, err,
    ast)]; the second component is the caller's [ast] afterwards.
    [node->get_as<T>()] is a member call through [node], whatever
    [parse] returned. *)
Definition ASTParserDelegate_parse (T : ClassDecl) (ast : option ASTNode)
  : Op (bool * option ASTNode) :=
  node <- parse ;;
  this <- arrow node "node->get_as<T>()" ;;
  let n := get_as T (Some this) in
  if negb (is_null n) then ret (true, n) else ret (false, ast).

End Parse.

(** ** A small grammar: [Sum := Term Addend*], [Addend := '+' Term] *)

Module Calc.

(** [class Term : public ASTString { PEGMATITE_RTTI(Term, ASTString) }];
    [ASTString] does not override [isa], so [ASTString::isa] is
    [ASTNode::isa]. *)
Definition Term : ClassDecl := PEGMATITE_RTTI "Term" 3 ASTNode_class.

(** [class Addend : public ASTContainer { ASTPtr<Term> term;
    PEGMATITE_RTTI(Addend, ASTContainer) }]. *)
Definition Addend : ClassDecl :=
  PEGMATITE_RTTI "Addend" 4 ASTContainer_class.

(** [class Sum : public ASTContainer { ASTPtr<Term> lhs;
    ASTList<Addend> rhs; PEGMATITE_RTTI(Sum, ASTContainer) }]. *)
Definition Sum : ClassDecl := PEGMATITE_RTTI "Sum" 5 ASTContainer_class.

Definition program : list ClassDecl :=
  [ASTNode_class; ASTContainer_class; ASTMember_class; Term; Addend; Sum].

Definition Sum_fields : list ASTMember :=
  [ASTPtr Term false None; ASTList Addend []].

Definition SumObject : Type := ASTContainer ASTMember.

#[export] Instance Sum_subclass : ASTNodeSubclass SumObject := {
  subclass_construct := ASTContainer_construct;
  new_T := new_container Sum_fields;
  as_ASTNode := fun obj => Object Sum (Fields (fields obj))
}.

Definition term (s : string) : ASTNode := Object Term (Text s).

Definition addend (s : string) : ASTNode :=
  Object Addend (Fields [ASTPtr Term false (Some (term s))]).

Definition world (st : ASTStack) : World := mkWorld st [] [].

(** The stack when [Sum] reduces over ["1+2+3"]. *)
Definition st_1_2_3 : ASTStack :=
  [(mkRange 0 1, term "1"); (mkRange 1 3, addend "2");
   (mkRange 3 5, addend "3")].

(** Two engines: one leaves the three entries above on the stack, one
    leaves a single term. *)
Definition three_entries : Op bool :=
  fun w => Done true (with_stack st_1_2_3 w).

Definition one_term : Op bool :=
  fun w => Done true (with_stack [(mkRange 0 1, term "1")] w).

Definition sum_node : ASTNode := Object Sum (Fields []).

(** An engine that finds no match and leaves the stack empty. *)
Definition no_match : Op bool := fun w => Done false w.

(** A node class written against [popFromASTStack]:
    [class Neg : public ASTNode { std::unique_ptr<Term> term;
    bool construct(r, st, err) override {
    auto popped = popFromASTStack<Term, false>(r, st, err);
    if (popped.first) term.swap(popped.second); return popped.first; }
    PEGMATITE_RTTI(Neg, ASTNode) }]. *)
Definition Neg : ClassDecl := PEGMATITE_RTTI "Neg" 6 ASTNode_class.

Definition NegClass : ASTNodeSubclass (option ASTNode) := {|
  subclass_construct := ASTPtr_construct Term false;
  new_T := None;
  as_ASTNode := fun term => Object Neg (Fields [ASTPtr Term false term])
|}.

End Calc.

(** ** Vocabulary of the list slot *)

(** An entry an [ASTList<T>] with range [r] takes: it lies within [r] and
    its node is a [T]. *)
Definition claimable (T : ClassDecl) (r : InputRange) (e : ASTStackEntry)
  : Prop :=
  outside (fst e) r = false /\ isa_T T (snd e) = true.

(** Where the loop of [ASTList<T>::construct] stops, and with which
    answer: the stack is used up, or its tail entry belongs to a sibling,
    or its tail entry lies within [r] and is not a [T]. *)
Inductive Boundary (T : ClassDecl) (r : InputRange)
  : ASTStack -> bool -> Prop :=
| stack_used_up : Boundary T r [] true
| sibling_entry below e :
    outside (fst e) r = true -> Boundary T r (below ++ [e]) true
| wrong_class below e :
    outside (fst e) r = false -> get_as T (Some (snd e)) = None ->
    Boundary T r (below ++ [e]) false.

(** ** Vocabulary of a claiming pass *)

(** What a claiming operation may do to the world: take entries off the
    tail of the stack and hand messages to the error reporter; [stderr] is
    left alone. *)
Definition consumes (w w' : World) : Prop :=
  (exists taken, stack w = stack w' ++ taken) /\
  (exists said, reported w' = reported w ++ said) /\
  stderr w' = stderr w.

(** Every pointer a slot holds points to an object of the slot's class:
    the [static_cast<T*>] behind it was a safe one. *)
Definition well_typed (m : ASTMember) : Prop :=
  match m with
  | ASTPtr T _ (Some n) => isa_T T n = true
  | ASTPtr _ _ None => True
  | ASTChild _ _ => True
  | ASTList T items => Forall (fun n => isa_T T n = true) items
  end.

(** Two states of one and the same declared field. *)
Definition same_slot (m m' : ASTMember) : Prop :=
  match m, m' with
  | ASTPtr T Optional _, ASTPtr T' Optional' _ =>
      T = T' /\ Optional = Optional'
  | ASTChild T _, ASTChild T' _ => T = T'
  | ASTList T _, ASTList T' _ => T = T'
  | _, _ => False
  end.

(** ** Node classes for [BindAST] *)

(** A container class [cls] with the given declared fields. *)
Definition ContainerClass (cls : ClassDecl) (declared : list ASTMember)
  : ASTNodeSubclass (ASTContainer ASTMember) := {|
  subclass_construct := ASTContainer_construct;
  new_T := new_container declared;
  as_ASTNode := fun obj => Object cls (Fields (fields obj))
|}.

Section Leaf.

(** Modelled from the spec: the iterators of an [InputRange] are declared
    in [parser.hh]; [covered r] stands for the [char32_t] values met from
    [r.begin()] to [r.end()]. *)
Variable covered : InputRange -> list N.




End Leaf.

(** ** The rule table of a delegate *)

(** Modelled from the spec: [Rule] and [parse_proc] are declared in
    [parser.hh].  A rule is known by its address, [std::addressof(r)]; a
    [parse_proc] is a callback over the matched range and the user data,
    which is the stack. *)
Definition Rule : Type := nat.

Definition parse_proc : Type := InputRange -> Op bool.

(** [std::unordered_map<const Rule*, parse_proc>], one value per key at
    most: [handlers.find(k)], with [None] for [handlers.end()], and
    [handlers[k] = p]. *)
Fixpoint find_handler (handlers : list (Rule * parse_proc)) (k : Rule)
  : option parse_proc :=
  match handlers with
  | [] => None
  | (k', p) :: rest => if k' =? k then Some p else find_handler rest k
  end.

Fixpoint store_handler (handlers : list (Rule * parse_proc)) (k : Rule)
    (p : parse_proc) : list (Rule * parse_proc) :=
  match handlers with
  | [] => [(k, p)]
  | (k', p') :: rest =>
      if k' =? k then (k, p) :: rest
      else (k', p') :: store_handler rest k p
  end.

Record ASTParserDelegate : Type := mkDelegate {
  handlers : list (Rule * parse_proc)
}.

(** [ASTParserDelegate::ASTParserDelegate()]: the object becomes
    [currentParserDelegate]; its map is empty. *)
Definition ASTParserDelegate_new : ASTParserDelegate := mkDelegate [].

(** [handlers[std::addressof(r)] = p]. *)
Definition set_parse_proc (this : ASTParserDelegate) (r : Rule)
    (p : parse_proc) : ASTParserDelegate :=
  mkDelegate (store_handler (handlers this) r p).

(** [currentParserDelegate->set_parse_proc(r, p)]. *)
Definition bind_parse_proc (r : Rule) (p : parse_proc)
    (currentParserDelegate : ASTParserDelegate) : ASTParserDelegate :=
  set_parse_proc currentParserDelegate r p.

(** [get_parse_proc]: [nullptr] when the rule has no handler. *)
Definition get_parse_proc (this : ASTParserDelegate) (r : Rule)
  : option parse_proc :=
  find_handler (handlers this) r.

(** [BindAST<T>::BindAST(r)], run for a field of the delegate under
    construction. *)
Definition BindAST_new (X : Type) `{ASTNodeSubclass X} (r : Rule)
    (currentParserDelegate : ASTParserDelegate) : ASTParserDelegate :=
  bind_parse_proc r (BindAST X) currentParserDelegate.
Arguments BindAST_new X {_} r currentParserDelegate.

(** A delegate subclass whose [BindAST] fields bind, in declaration order,
    the rules of [bindings] to the callbacks beside them. *)
Definition new_delegate (bindings : list (Rule * parse_proc))
  : ASTParserDelegate :=
  fold_left (fun current b => bind_parse_proc (fst b) (snd b) current)
            bindings ASTParserDelegate_new.

(** * Properties *)

Create HintDb op discriminated.
#[export] Hint Unfold bind ret assert_ get_stack set_stack err
  fprintf_stderr : op.

Ltac run := autounfold with op; simpl.

Lemma with_stack_same (w : World) : with_stack (stack w) w = w.
Proof. now destruct w. Qed.

(** ** Vectors *)

Lemma back_snoc {A} (v : list A) (e : A) : back (v ++ [e]) = Some e.
Proof. unfold back. rewrite rev_app_distr. reflexivity. Qed.

Lemma pop_back_snoc {A} (v : list A) (e : A) : pop_back (v ++ [e]) = v.
Proof. apply removelast_last. Qed.

(** ** The downcast *)

Lemma ancestors_self (c : ClassDecl) : In c (ancestors c).
Proof. destruct c; simpl; auto. Qed.

(** [isa] accepts exactly the kinds found on the inheritance chain. *)
Lemma isa_ancestors (c : ClassDecl) (x : Kind) :
  isa c x = true <-> exists a, In a (ancestors c) /\ classKind a = x.
Proof.
  induction c as [|name id super IH].
  - simpl. rewrite Nat.eqb_eq. split.
    + intros ->. exists ASTNode_class. auto.
    + intros (a & [<-|[]] & <-). reflexivity.
  - cbn [isa ancestors]. rewrite orb_true_iff, Nat.eqb_eq, IH. split.
    + intros [->|(a & Ha & <-)].
      * eexists. split; [left; reflexivity|reflexivity].
      * exists a. split; [right; assumption|reflexivity].
    + intros (a & [<-|Ha] & <-).
      * left. reflexivity.
      * right. exists a. auto.
Qed.

Lemma NoDup_kinds_distinct (program : list ClassDecl) :
  NoDup (map classKind program) -> distinct_kinds program.
Proof.
  induction program as [|c rest IH]; intros Hnd a b Ha Hb Hk.
  - destruct Ha.
  - inversion Hnd as [|? ? Hnotin Hrest]; subst.
    destruct Ha as [<-|Ha], Hb as [<-|Hb]; auto.
    + exfalso. apply Hnotin. rewrite Hk. now apply in_map.
    + exfalso. apply Hnotin. rewrite <- Hk. now apply in_map.
    + now apply IH.
Qed.

Section Downcast.

(** The classes of the program, with their distinct [classKind()]
    statics. *)
Variable program : list ClassDecl.
Hypothesis statics : distinct_kinds program.

Lemma isa_chain (C T : ClassDecl) :
  incl (ancestors C) program -> In T program ->
  isa C (classKind T) = true <-> In T (ancestors C).
Proof.
  intros Hin HT. rewrite isa_ancestors. split.
  - intros (a & Ha & Hk).
    now rewrite <- (statics a T (Hin _ Ha) HT Hk).
  - intros H. now exists T.
Qed.

(** C10: for a node whose dynamic class is [C], [get_as<T>()] returns
    the node itself exactly when [T] is on the inheritance chain of [C]
    up to [ASTNode], and null for every other class [T] of the program;
    [isa(T::classKind())] holds exactly on that chain. *)
Theorem get_as_exactly_on_the_chain (C T : ClassDecl) (n : ASTNode) :
  incl (ancestors C) program -> In T program -> dynamic_class n = C ->
  (In T (ancestors C) -> get_as T (Some n) = Some n) /\
  (~ In T (ancestors C) -> get_as T (Some n) = None) /\
  (isa C (classKind T) = true <-> In T (ancestors C)).
Proof.
  intros Hin HT <-.
  pose proof (isa_chain (dynamic_class n) T Hin HT) as Hiff.
  unfold get_as, isa_T. repeat split.
  - intros H. apply Hiff in H. now rewrite H.
  - intros H. destruct (isa _ _) eqn:E; [|reflexivity].
    exfalso. now apply H, Hiff.
  - apply Hiff.
  - apply Hiff.
Qed.

End Downcast.

(** ** The shared claiming routine, case by case *)

Section Claim.

Variables (T : ClassDecl) (r : InputRange) (w : World).

Lemma pop_empty_optional :
  stack w = [] -> popFromASTStack T true r w = Done (false, None) w.
Proof. unfold popFromASTStack. run. now intros ->. Qed.

Lemma pop_empty_required :
  stack w = [] ->
  popFromASTStack T false r w = Aborted "Stack must not be empty" w.
Proof. unfold popFromASTStack. run. now intros ->. Qed.

Variables (below : ASTStack) (e : ASTStackEntry).
Hypothesis tail : stack w = below ++ [e].

Lemma pop_tail (Optional : bool) :
  popFromASTStack T Optional r w =
  if outside (fst e) r then
    if Optional then Done (true, None) w
    else Done (false, None) (with_report (fst e) (non_optional_expected T) w)
  else
    match get_as T (Some (snd e)) with
    | None =>
        if Optional then Done (false, None) w
        else Done (false, None)
                  (with_report (fst e) (expected_found T (snd e)) w)
    | Some obj => Done (true, Some obj) (with_stack below w)
    end.
Proof.
  unfold popFromASTStack. run. rewrite tail.
  replace (empty (below ++ [e])) with false by now destruct below.
  rewrite back_snoc, pop_back_snoc. simpl.
  destruct (outside (fst e) r); [now destruct Optional|].
  unfold get_as. destruct (isa_T T (snd e)); now destruct Optional.
Qed.

End Claim.

(** ** Pointer slots *)

Section PtrSlot.

Variables (T : ClassDecl) (r : InputRange) (w : World).
Variable this : option ASTNode.

Lemma ASTPtr_empty_optional :
  stack w = [] -> ASTPtr_construct T true r this w = Done (false, this) w.
Proof.
  intros H. unfold ASTPtr_construct, bind.
  now rewrite pop_empty_optional.
Qed.

Lemma ASTPtr_empty_required :
  stack w = [] ->
  ASTPtr_construct T false r this w = Aborted "Stack must not be empty" w.
Proof.
  intros H. unfold ASTPtr_construct, bind.
  now rewrite pop_empty_required.
Qed.

Variables (below : ASTStack) (e : ASTStackEntry).
Hypothesis tail : stack w = below ++ [e].

Lemma ASTPtr_tail (Optional : bool) :
  ASTPtr_construct T Optional r this w =
  if outside (fst e) r then
    if Optional then Done (true, None) w
    else Done (false, this)
              (with_report (fst e) (non_optional_expected T) w)
  else
    match get_as T (Some (snd e)) with
    | None =>
        if Optional then Done (false, this) w
        else Done (false, this)
                  (with_report (fst e) (expected_found T (snd e)) w)
    | Some obj => Done (true, Some obj) (with_stack below w)
    end.
Proof.
  unfold ASTPtr_construct, bind. rewrite (pop_tail T r w below e tail).
  destruct (outside (fst e) r); [now destruct Optional|].
  destruct (get_as T (Some (snd e))); now destruct Optional.
Qed.

End PtrSlot.

(** ** Adopted children *)

Lemma ASTChild_tail (T : ClassDecl) (r : InputRange) (w : World)
    (this : Body) (below : ASTStack) (e : ASTStackEntry) :
  stack w = below ++ [e] ->
  ASTChild_construct T r this w =
  if outside (fst e) r then
    Done (false, this) (with_report (fst e) (non_optional_expected T) w)
  else
    match get_as T (Some (snd e)) with
    | None =>
        Done (false, this)
             (with_report (fst e) (expected_found T (snd e)) w)
    | Some obj => Done (true, state_of obj) (with_stack below w)
    end.
Proof.
  intros tail. unfold ASTChild_construct, bind.
  rewrite (pop_tail T r w below e tail).
  destruct (outside (fst e) r); [reflexivity|].
  now destruct (get_as T (Some (snd e))).
Qed.

(** ** The list slot *)

Section ListSlot.

Variables (T : ClassDecl) (r : InputRange).

Lemma ASTList_loop_empty (items : list ASTNode) :
  ASTList_loop T r [] items = (true, [], items).
Proof. now simp ASTList_loop. Qed.

(** One round of the loop on a stack with a tail entry. *)
Lemma ASTList_loop_tail (below : ASTStack) (e : ASTStackEntry)
    (items : list ASTNode) :
  ASTList_loop T r (below ++ [e]) items =
  if outside (fst e) r then (true, below ++ [e], items)
  else match get_as T (Some (snd e)) with
       | None => (false, below ++ [e], items)
       | Some obj => ASTList_loop T r below (obj :: items)
       end.
Proof.
  remember (below ++ [e]) as st eqn:Hst.
  funelim (ASTList_loop T r st items).
  all: match goal with
       | H : back (_ ++ [_]) = _ |- _ =>
           let H' := fresh in
           pose proof H as H'; rewrite back_snoc in H';
           try discriminate H'; injection H' as H'
       end.
  all: subst; rewrite ?pop_back_snoc.
  all: repeat match goal with
              | H : outside _ _ = _ |- _ => rewrite H
              | H : get_as _ _ = _ |- _ => rewrite H
              end; reflexivity.
Qed.

Lemma claimable_get_as (e : ASTStackEntry) :
  claimable T r e -> get_as T (Some (snd e)) = Some (snd e).
Proof. intros [_ H]. unfold get_as. now rewrite H. Qed.

(** The loop takes the whole run of claimable entries above the
    boundary, and hands them over in stack order. *)
Lemma ASTList_loop_run (pre ents : ASTStack) (b : bool) :
  Forall (claimable T r) ents -> Boundary T r pre b ->
  forall items,
    ASTList_loop T r (pre ++ ents) items = (b, pre, map snd ents ++ items).
Proof.
  intros Hents Hpre.
  induction ents as [|e ents IH] using rev_ind; intros items.
  - rewrite app_nil_r. simpl.
    destruct Hpre as [|below e Hout|below e Hin Hcast].
    + apply ASTList_loop_empty.
    + now rewrite ASTList_loop_tail, Hout.
    + now rewrite ASTList_loop_tail, Hin, Hcast.
  - apply Forall_app in Hents as [Hents He].
    inversion He as [|? ? Hc _]; subst.
    rewrite app_assoc, ASTList_loop_tail.
    rewrite (proj1 Hc), (claimable_get_as e Hc), (IH Hents).
    now rewrite map_app, <- app_assoc.
Qed.

(** Every stack splits, in one way only as far as the loop is
    concerned, into a boundary and a run of claimable entries. *)
Lemma stack_splits (st : ASTStack) :
  exists pre ents b,
    st = pre ++ ents /\ Forall (claimable T r) ents /\ Boundary T r pre b.
Proof.
  induction st as [|e st IH] using rev_ind.
  - exists [], [], true. repeat split; constructor.
  - destruct (outside (fst e) r) eqn:Hout.
    + exists (st ++ [e]), [], true. rewrite app_nil_r.
      repeat split; now constructor.
    + destruct (isa_T T (snd e)) eqn:Hisa.
      * destruct IH as (pre & ents & b & -> & Hents & Hpre).
        exists pre, (ents ++ [e]), b. rewrite app_assoc.
        repeat split; [|assumption].
        apply Forall_app. split; [assumption|].
        constructor; [now split|constructor].
      * exists (st ++ [e]), [], false. rewrite app_nil_r.
        repeat split; [constructor|].
        constructor; [assumption|]. unfold get_as. now rewrite Hisa.
Qed.

(** C2: [ASTList<T>::construct] stops with success on an empty stack and
    at a tail entry that starts before [r] or ends after [r], which it
    leaves in place; it answers [false] at a tail entry within [r] that
    is not a [T]; otherwise it pops and prepends.  So with [k >= 0]
    claimable entries [ents] above such a boundary it takes exactly
    those [k] entries, and the list holds them in their stack order,
    which is the source order. *)
Theorem ASTList_construct_takes_the_run (w : World) (pre ents : ASTStack)
    (b : bool) (items : list ASTNode) :
  stack w = pre ++ ents ->
  Forall (claimable T r) ents ->
  Boundary T r pre b ->
  ASTList_construct T r items w =
  Done (b, map snd ents ++ items) (with_stack pre w).
Proof.
  intros Hst Hents Hpre. unfold ASTList_construct. run.
  now rewrite Hst, (ASTList_loop_run pre ents b Hents Hpre).
Qed.

End ListSlot.

(** ** The containment test *)

Lemma outside_same (r : InputRange) : outside r r = false.
Proof. unfold outside. now rewrite !Nat.ltb_irrefl. Qed.

(** C5, as amended: a tail entry that starts before [r] or ends after [r]
    is never claimed: an optional slot succeeds with none, a required slot
    (a pointer or an adopted child) reports that a non-optional [T] was
    expected and fails, a list slot stops, and all of them leave the entry
    on the stack.  A tail entry whose range equals [r] passes the
    containment test, and is claimed when its node is a [T]. *)
Theorem containment_boundary (T : ClassDecl) (r : InputRange) (w : World)
    (below : ASTStack) (e : ASTStackEntry) :
  stack w = below ++ [e] ->
  (outside (fst e) r = true ->
   (forall this, ASTPtr_construct T true r this w = Done (true, None) w) /\
   (forall this,
      ASTPtr_construct T false r this w =
      Done (false, this)
           (with_report (fst e) (non_optional_expected T) w)) /\
   (forall this,
      ASTChild_construct T r this w =
      Done (false, this)
           (with_report (fst e) (non_optional_expected T) w)) /\
   (forall items, ASTList_construct T r items w = Done (true, items) w)) /\
  (fst e = r -> isa_T T (snd e) = true ->
   (forall Optional this,
      ASTPtr_construct T Optional r this w =
      Done (true, Some (snd e)) (with_stack below w)) /\
   (forall this,
      ASTChild_construct T r this w =
      Done (true, state_of (snd e)) (with_stack below w)) /\
   (forall items,
      ASTList_construct T r items w =
      ASTList_construct T r (snd e :: items) (with_stack below w))).
Proof.
  intros Hst. split.
  - intros Hout. repeat split; intros.
    + now rewrite (ASTPtr_tail T r w this below e Hst), Hout.
    + now rewrite (ASTPtr_tail T r w this below e Hst), Hout.
    + now rewrite (ASTChild_tail T r w this below e Hst), Hout.
    + unfold ASTList_construct. run.
      rewrite Hst, ASTList_loop_tail, Hout. simpl.
      now rewrite <- Hst, with_stack_same.
  - intros Hr Hisa. repeat split; intros.
    + rewrite (ASTPtr_tail T r w this below e Hst), Hr, outside_same.
      unfold get_as. now rewrite Hisa.
    + rewrite (ASTChild_tail T r w this below e Hst), Hr, outside_same.
      unfold get_as. now rewrite Hisa.
    + unfold ASTList_construct. run.
      rewrite Hst, ASTList_loop_tail, Hr, outside_same.
      unfold get_as. rewrite Hisa.
      now destruct (ASTList_loop T r below (snd e :: items)) as [[? ?] ?].
Qed.

(** ** Containers *)

Lemma firstn_S_snoc {A} (l : list A) (n : nat) (x : A) :
  nth_error l n = Some x -> firstn (S n) l = firstn n l ++ [x].
Proof.
  revert n. induction l as [|y l IH]; intros [|n]; simpl; try discriminate.
  - now intros [= ->].
  - intros H. f_equal. now apply IH.
Qed.

Section ContainerFacts.

Context {M : Type} {M_construct : Constructible M}.

(** Registration lists the declared fields in declaration order. *)
Lemma new_container_registers (declared : list M) :
  fields (new_container declared) = declared /\
  members (new_container declared) = seq 0 (length declared).
Proof.
  unfold new_container.
  enough (forall current : ASTContainer M,
             members current = seq 0 (length (fields current)) ->
             let result :=
               fold_left (fun c field => ASTMember_new field c)
                         declared current in
             fields result = fields current ++ declared /\
             members result =
               seq 0 (length (fields current) + length declared)) as H.
  { specialize (H ASTContainer_new eq_refl). simpl in H. exact H. }
  induction declared as [|field rest IH]; intros current Hcur; simpl.
  - now rewrite app_nil_r, Nat.add_0_r.
  - destruct (IH (ASTMember_new field current)) as [Hf Hm].
    + simpl. rewrite length_app, seq_app, Hcur. simpl. reflexivity.
    + simpl in Hf, Hm. rewrite length_app in Hm. simpl in Hm.
      rewrite Hf, Hm, <- app_assoc. simpl.
      split; [reflexivity|f_equal; lia].
Qed.

(** No member pointer of a freshly built container dangles. *)
Lemma new_container_pointers (declared : list M) :
  Forall (fun member => member < length (fields (new_container declared)))
         (members (new_container declared)).
Proof.
  destruct (new_container_registers declared) as [-> ->].
  apply Forall_forall. intros member Hin. apply in_seq in Hin. lia.
Qed.

(** [true |= x] stays [true]: the loop never answers [false]. *)
Lemma construct_loop_answer (r : InputRange) (ms : list nat) (it : nat) :
  forall fs w b fs' w',
    construct_loop r ms it fs true w = Done (b, fs') w' -> b = true.
Proof.
  induction it as [|next IH]; intros fs w b fs' w'; simpl.
  - unfold ret. now intros [= <- _ _].
  - destruct (nth_error ms next) as [member|].
    + destruct (nth_error fs member) as [m|]; [|discriminate].
      unfold bind. destruct (construct r m w) as [res w1|]; [|discriminate].
      simpl. apply IH.
    + unfold ret. now intros [= <- _ _].
Qed.

Lemma ASTContainer_construct_answer (r : InputRange)
    (this : ASTContainer M) (w : World) b this' w' :
  ASTContainer_construct r this w = Done (b, this') w' -> b = true.
Proof.
  unfold ASTContainer_construct, bind.
  destruct (construct_loop _ _ _ _ _ w) as [[b0 fs] w1|] eqn:Hloop;
    [|discriminate].
  unfold ret. simpl. intros [= <- _ _].
  eapply construct_loop_answer. exact Hloop.
Qed.

(** The slots asked by [claim_in_order] are those of [order], in that
    order. *)
Lemma claim_in_order_asked (r : InputRange) (order : list nat) :
  forall fs w answers fs' w',
    claim_in_order r order fs w = Done (answers, fs') w' ->
    map fst answers = order.
Proof.
  induction order as [|member later IH]; intros fs w answers fs' w'; simpl.
  - unfold ret. now intros [= <- _ _].
  - destruct (nth_error fs member) as [m|]; [|discriminate].
    unfold bind. destruct (construct r m w) as [res w1|]; [|discriminate].
    destruct (claim_in_order r later _ w1) as [[rest fs1] w2|] eqn:Hrest;
      [|discriminate].
    unfold ret. simpl. intros [= <- _ _]. simpl.
    f_equal. eapply IH. exact Hrest.
Qed.

(** The reverse-iterator loop from base [it] asks the first [it]
    registered slots, last one first. *)
Lemma construct_loop_in_order (r : InputRange) (ms : list nat) (it : nat) :
  it <= length ms ->
  forall fs success w,
    construct_loop r ms it fs success w =
    (rest <- claim_in_order r (rev (firstn it ms)) fs ;;
     ret (fold_left orb (map snd (fst rest)) success, snd rest)) w.
Proof.
  induction it as [|next IH]; intros Hle fs success w.
  - reflexivity.
  - assert (Hlt : next < length ms) by lia.
    destruct (nth_error ms next) as [member|] eqn:Hnth;
      [|apply nth_error_None in Hnth; lia].
    rewrite (firstn_S_snoc ms next member Hnth), rev_app_distr.
    simpl. rewrite Hnth.
    destruct (nth_error fs member) as [m|]; [|reflexivity].
    unfold bind. destruct (construct r m w) as [res w1|]; [|reflexivity].
    rewrite IH by lia. unfold bind, ret.
    now destruct (claim_in_order r _ _ w1) as [[rest fs1] w2|].
Qed.

(** C6: a construction pass of a container asks its member slots in the
    reverse of their registration order, each registered slot once, and
    leaves the slot list empty when it is over, whatever the slots
    answered; a later pass over the same container asks no slot at all.
    Registration order is declaration order. *)
Theorem ASTContainer_pass (r : InputRange) (this : ASTContainer M)
    (w : World) :
  ASTContainer_construct r this w =
    (rest <- claim_in_order r (rev (members this)) (fields this) ;;
     ret (fold_left orb (map snd (fst rest)) true,
          mkContainer (snd rest) [])) w /\
  (forall b this' w',
      ASTContainer_construct r this w = Done (b, this') w' ->
      members this' = [] /\
      (exists answers,
          claim_in_order r (rev (members this)) (fields this) w =
            Done (answers, fields this') w' /\
          map fst answers = rev (members this)) /\
      (forall r2 w2,
          ASTContainer_construct r2 this' w2 = Done (true, this') w2)) /\
  (forall declared : list M,
      fields (new_container declared) = declared /\
      members (new_container declared) = seq 0 (length declared)).
Proof.
  assert (Heq : ASTContainer_construct r this w =
    (rest <- claim_in_order r (rev (members this)) (fields this) ;;
     ret (fold_left orb (map snd (fst rest)) true,
          mkContainer (snd rest) [])) w).
  { unfold ASTContainer_construct, bind at 1.
    rewrite construct_loop_in_order by lia.
    rewrite firstn_all. unfold bind, ret.
    now destruct (claim_in_order r _ _ w) as [[rest fs1] w1|]. }
  split; [exact Heq|]. split; [|apply new_container_registers].
  intros b this' w'. rewrite Heq. unfold bind, ret.
  destruct (claim_in_order r _ _ w) as [[answers fs1] w1|] eqn:Hpass;
    [|discriminate].
  simpl. intros [= <- <- <-]. split; [reflexivity|]. split.
  - exists answers. split; [reflexivity|].
    eapply claim_in_order_asked. exact Hpass.
  - reflexivity.
Qed.

End ContainerFacts.

(** ** The reduction callback *)

(** The callback of [BindAST<T>] allocates a fresh [T] and calls its
    [construct] on the range; when that answers [true] the pair of the
    range and the node is pushed on the tail of the stack and the callback
    answers [true]; when it answers [false] nothing is pushed and the
    callback answers [false]. *)
Theorem BindAST_callback (X : Type) `{ASTNodeSubclass X}
    (range : InputRange) (w : World) :
  (forall obj w1,
      construct range new_T w = Done (true, obj) w1 ->
      BindAST X range w =
      Done true (with_stack (stack w1 ++ [(range, as_ASTNode obj)]) w1)) /\
  (forall obj w1,
      construct range new_T w = Done (false, obj) w1 ->
      BindAST X range w = Done false w1).
Proof.
  split; intros obj w1 Hc; unfold BindAST, bind; rewrite Hc; reflexivity.
Qed.

(** The callback and its lambda answer alike and leave the same world. *)
Lemma BindAST_is_its_lambda (X : Type) `{ASTNodeSubclass X}
    (range : InputRange) (w : World) :
  BindAST X range w = (res <- BindAST_lambda X range ;; ret (fst res)) w.
Proof.
  unfold BindAST, BindAST_lambda, bind.
  destruct (construct range new_T w) as [[b obj] w1|]; [|reflexivity].
  now destruct b.
Qed.

(** No [return] of the lambda deletes the object: after [true] the pushed
    entry owns it, after [false] it stays allocated as [construct] left
    it, with no owner. *)
Lemma BindAST_never_deletes (X : Type) `{ASTNodeSubclass X}
    (range : InputRange) (w w1 : World) (b : bool) (fate : Fate X) :
  BindAST_lambda X range w = Done (b, fate) w1 ->
  fate <> deleted /\
  (b = true -> fate = owned_by_the_entry) /\
  (b = false ->
   exists obj, fate = never_deleted obj /\
               construct range new_T w = Done (false, obj) w1).
Proof.
  unfold BindAST_lambda, bind.
  destruct (construct range new_T w) as [[b0 obj] w2|]; [|discriminate].
  destruct b0; simpl; run; intros [= <- <- <-].
  - repeat split; discriminate.
  - repeat split; try discriminate. intros _. now exists obj.
Qed.

(** ** The top-level driver *)

Lemma with_stderr_nil (w : World) : with_stderr [] w = w.
Proof. destruct w. unfold with_stderr. simpl. now rewrite app_nil_r. Qed.

Lemma with_stderr_cons (line : string) (lines : list string) (w : World) :
  with_stderr lines (with_stderr [line] w) = with_stderr (line :: lines) w.
Proof. unfold with_stderr. simpl. now rewrite <- app_assoc. Qed.

(** [dump] writes one line per entry. *)
Lemma dump_lines (st : ASTStack) :
  forall i w, dump st i w = Done tt (with_stderr (residual_lines st i) w).
Proof.
  induction st as [|entry rest IH]; intros i w; simpl.
  - unfold ret. now rewrite with_stderr_nil.
  - run. rewrite IH, with_stderr_cons. reflexivity.
Qed.

Section ParseFacts.

Variable engine : Op bool.
Variable w : World.

(** C7: when the engine reports failure, [parse] returns null; when it
    reports success and the stack holds one entry, [parse] returns the
    node of that entry; when more than one entry is left, the run ends at
    the failed [assert(st.size() == 1)] instead of returning one of them,
    and by then [stderr] has grown by one line per entry, in stack order:
    the index of the entry in brackets, a space, the [typeid] name of
    its node, a newline.  The stack and the reported messages are those
    the engine left. *)
Theorem parse_root :
  (forall w1,
      engine (with_stack [] w) = Done false w1 ->
      parse engine w = Done None w1) /\
  (forall w1 e,
      engine (with_stack [] w) = Done true w1 -> stack w1 = [e] ->
      parse engine w = Done (Some (snd e)) w1) /\
  (forall w1,
      engine (with_stack [] w) = Done true w1 -> 1 < length (stack w1) ->
      parse engine w =
      Aborted "st.size() == 1"
        (mkWorld (stack w1) (reported w1)
           (stderr w1 ++
            map (fun numbered =>
                   ("[" ++ NilEmpty.string_of_uint
                             (Nat.to_uint (fst numbered))
                        ++ "] "
                        ++ typeid_raw_name
                             (dynamic_class (snd (snd numbered)))
                        ++ String "010" EmptyString)%string)
                (combine (seq 0 (length (stack w1))) (stack w1))))).
Proof.
  unfold parse. run. split; [|split].
  - intros w1 ->. reflexivity.
  - intros w1 e -> Hone. simpl. rewrite Hone. reflexivity.
  - intros w1 -> Hmany.
    simpl. apply Nat.ltb_lt in Hmany as Hlt. rewrite Hlt, dump_lines.
    replace (length (stack w1) =? 1) with false
      by (symmetry; apply Nat.eqb_neq; lia).
    reflexivity.
Qed.

(** The typed wrapper on each outcome of [parse]: a root that is a [T] is
    stored in the caller's pointer, with the answer [true]; a root that is
    no [T] gives [false] and leaves the caller's pointer as it was; and
    when [parse] returned null the member call [node->get_as<T>()] is
    made through a null pointer. *)
Theorem typed_parse_root (T : ClassDecl) (ast : option ASTNode) :
  (forall n w1,
      parse engine w = Done (Some n) w1 -> isa_T T n = true ->
      ASTParserDelegate_parse engine T ast w = Done (true, Some n) w1) /\
  (forall n w1,
      parse engine w = Done (Some n) w1 -> isa_T T n = false ->
      ASTParserDelegate_parse engine T ast w = Done (false, ast) w1) /\
  (forall w1,
      parse engine w = Done None w1 ->
      ASTParserDelegate_parse engine T ast w =
      Aborted "node->get_as<T>()" w1).
Proof.
  unfold ASTParserDelegate_parse, bind, arrow, get_as.
  split; [|split].
  - intros n w1 -> ->. reflexivity.
  - intros n w1 -> ->. reflexivity.
  - intros w1 ->. reflexivity.
Qed.

End ParseFacts.

(** * The small grammar at work *)

Module CalcFacts.

Import Calc.

Lemma statics : distinct_kinds program.
Proof.
  apply NoDup_kinds_distinct. simpl.
  repeat constructor; simpl; intuition discriminate.
Qed.

(** A [Sum] node is an [ASTContainer] and is not a [Term]. *)
Lemma get_as_exactly_on_the_chain_witness :
  get_as ASTContainer_class (Some sum_node) = Some sum_node /\
  get_as Term (Some sum_node) = None.
Proof.
  split.
  - apply (get_as_exactly_on_the_chain program statics Sum
             ASTContainer_class sum_node);
      [intros c Hc | | | ]; simpl in *; intuition (subst; auto).
  - apply (get_as_exactly_on_the_chain program statics Sum Term sum_node);
      [intros c Hc | | | ]; simpl in *;
      try solve [intuition (subst; auto)].
    intuition discriminate.
Defined.

(** A list of addends over [1..5], below three entries: the slot takes
    the two addends, in source order, and stops at the term, which
    starts before the range. *)
Lemma ASTList_construct_takes_the_run_witness :
  ASTList_construct Addend (mkRange 1 5) [] (world st_1_2_3) =
  Done (true, [addend "2"; addend "3"])
       (world [(mkRange 0 1, term "1")]).
Proof.
  apply (ASTList_construct_takes_the_run Addend (mkRange 1 5)
           (world st_1_2_3)
           [(mkRange 0 1, term "1")]
           [(mkRange 1 3, addend "2"); (mkRange 3 5, addend "3")]
           true []).
  - reflexivity.
  - repeat constructor.
  - apply (sibling_entry Addend (mkRange 1 5) [] (mkRange 0 1, term "1")).
    reflexivity.
Defined.

(** A term that lies before the range is left alone by all three kinds
    of slot; a term that spans the range exactly is claimed. *)
Lemma containment_boundary_witness :
  (ASTPtr_construct Term true (mkRange 1 5) None
                    (world [(mkRange 0 1, term "1")]) =
     Done (true, None) (world [(mkRange 0 1, term "1")]) /\
   ASTPtr_construct Term false (mkRange 1 5) None
                    (world [(mkRange 0 1, term "1")]) =
     Done (false, None)
          (with_report (mkRange 0 1) "Non-optional Term expected."
                       (world [(mkRange 0 1, term "1")])) /\
   ASTList_construct Term (mkRange 1 5) []
                     (world [(mkRange 0 1, term "1")]) =
     Done (true, []) (world [(mkRange 0 1, term "1")])) /\
  ASTPtr_construct Term false (mkRange 0 1) None
                   (world [(mkRange 0 1, term "1")]) =
    Done (true, Some (term "1")) (world []).
Proof.
  destruct (containment_boundary Term (mkRange 1 5)
              (world [(mkRange 0 1, term "1")]) []
              (mkRange 0 1, term "1") eq_refl) as [Houtside _].
  destruct (containment_boundary Term (mkRange 0 1)
              (world [(mkRange 0 1, term "1")]) []
              (mkRange 0 1, term "1") eq_refl) as [_ Hexact].
  destruct (Houtside eq_refl) as (Hopt & Hreq & _ & Hlist).
  destruct (Hexact eq_refl eq_refl) as [Hptr _].
  split; [split; [apply Hopt | split; [apply Hreq | apply Hlist]]|].
  apply (Hptr false None).
Defined.

(** C5, as first stated, also claims every tail entry whose range equals
    [r]; a required [Term] slot leaves an [Addend] with that very range
    on the stack. *)
Lemma exact_range_is_not_enough :
  ~ (forall (T : ClassDecl) (Optional : bool) (r : InputRange)
            (this : option ASTNode) (w : World) (below : ASTStack)
            (e : ASTStackEntry),
        stack w = below ++ [e] -> fst e = r ->
        ASTPtr_construct T Optional r this w =
        Done (true, Some (snd e)) (with_stack below w)).
Proof.
  intros claim.
  specialize (claim Term false (mkRange 1 3) None
                    (world [(mkRange 1 3, addend "2")]) []
                    (mkRange 1 3, addend "2") eq_refl eq_refl).
  discriminate claim.
Qed.

(** A pass of a fresh [Sum] over ["1+2+3"]: [rhs], declared last, is
    asked first and answers [false] at the term; then [lhs] takes the
    term; the slot list is empty afterwards. *)
Lemma ASTContainer_pass_witness :
  ASTContainer_construct (mkRange 0 5) (new_container Sum_fields)
                         (world st_1_2_3) =
    Done (true,
          mkContainer [ASTPtr Term false (Some (term "1"));
                       ASTList Addend [addend "2"; addend "3"]] [])
         (world []) /\
  exists answers,
    claim_in_order (mkRange 0 5) [1; 0] Sum_fields (world st_1_2_3) =
      Done (answers,
            [ASTPtr Term false (Some (term "1"));
             ASTList Addend [addend "2"; addend "3"]])
           (world []) /\
    map fst answers = [1; 0].
Proof.
  split; [reflexivity|].
  destruct (ASTContainer_pass (mkRange 0 5) (new_container Sum_fields)
                              (world st_1_2_3)) as (_ & Hdone & _).
  destruct (Hdone true
                  (mkContainer [ASTPtr Term false (Some (term "1"));
                                ASTList Addend [addend "2"; addend "3"]] [])
                  (world []) eq_refl) as (_ & Hasked & _).
  exact Hasked.
Defined.

(** C1, evaluated: the required slot of a container answers [false] at
    an [Addend], and the container still answers [true]. *)
Example failed_required_slot_is_swallowed :
  let r := mkRange 0 5 in
  let w := world [(mkRange 1 3, addend "2")] in
  let w' := with_report (mkRange 1 3) "Expected Term, found Addend" w in
  construct r (ASTPtr Term false None) w =
    Done (false, ASTPtr Term false None) w' /\
  construct r (new_container [ASTPtr Term false None]) w =
    Done (true, mkContainer [ASTPtr Term false None] []) w'.
Proof. split; reflexivity. Qed.

(** C3, evaluated: an optional slot on an empty stack answers [false],
    where the same slot at an entry of a sibling answers [true]. *)
Example optional_slot_on_empty_stack_answers_false :
  construct (mkRange 1 5) (ASTPtr Term true None) (world []) =
    Done (false, ASTPtr Term true None) (world []) /\
  construct (mkRange 1 5) (ASTPtr Term true None)
            (world [(mkRange 0 1, term "1")]) =
    Done (true, ASTPtr Term true None) (world [(mkRange 0 1, term "1")]).
Proof. split; reflexivity. Qed.

(** C4, evaluated: an optional [Term] slot at an [Addend] within its
    range answers [false] and leaves the entry; the required slot
    reports the two class names, answers [false] and leaves the
    entry. *)
Example optional_slot_at_wrong_class_answers_false :
  let r := mkRange 0 5 in
  let w := world [(mkRange 1 3, addend "2")] in
  construct r (ASTPtr Term true None) w =
    Done (false, ASTPtr Term true None) w /\
  construct r (ASTPtr Term false None) w =
    Done (false, ASTPtr Term false None)
         (with_report (mkRange 1 3) "Expected Term, found Addend" w).
Proof. split; reflexivity. Qed.

(** The callback of [BindAST<Sum>] over ["1+2+3"]: the new [Sum] node
    holds the term and the two addends, and is the only entry left. *)
Lemma BindAST_callback_witness :
  BindAST SumObject (mkRange 0 5) (world st_1_2_3) =
  Done true
       (world [(mkRange 0 5,
                Object Sum
                  (Fields [ASTPtr Term false (Some (term "1"));
                           ASTList Addend [addend "2"; addend "3"]]))]).
Proof.
  destruct (BindAST_callback SumObject (mkRange 0 5) (world st_1_2_3))
    as [Hpush _].
  apply (Hpush (mkContainer
                  [ASTPtr Term false (Some (term "1"));
                   ASTList Addend [addend "2"; addend "3"]] [])
               (world [])).
  reflexivity.
Defined.

Lemma parse_root_witness :
  parse three_entries (world []) =
  Aborted "st.size() == 1"
          (mkWorld st_1_2_3 []
                   [String.append "[0] 4Term" (String "010" EmptyString);
                    String.append "[1] 6Addend" (String "010" EmptyString);
                    String.append "[2] 6Addend" (String "010" EmptyString)])
  /\
  parse one_term (world []) =
  Done (Some (term "1")) (world [(mkRange 0 1, term "1")]).
Proof.
  split.
  - destruct (parse_root three_entries (world [])) as (_ & _ & Hmany).
    apply (Hmany (world st_1_2_3)); [reflexivity|simpl; lia].
  - destruct (parse_root one_term (world [])) as (_ & Hone & _).
    apply (Hone (world [(mkRange 0 1, term "1")]) (mkRange 0 1, term "1"));
      reflexivity.
Defined.

Lemma typed_parse_root_witness :
  ASTParserDelegate_parse one_term Term None (world []) =
    Done (true, Some (term "1")) (world [(mkRange 0 1, term "1")]) /\
  ASTParserDelegate_parse one_term Sum (Some sum_node) (world []) =
    Done (false, Some sum_node) (world [(mkRange 0 1, term "1")]).
Proof.
  split.
  - destruct (typed_parse_root one_term (world []) Term None)
      as (Hok & _ & _).
    apply (Hok (term "1") (world [(mkRange 0 1, term "1")])); reflexivity.
  - destruct (typed_parse_root one_term (world []) Sum (Some sum_node))
      as (_ & Hfail & _).
    apply (Hfail (term "1") (world [(mkRange 0 1, term "1")]));
      reflexivity.
Defined.

(** The names [typeid] gives: a nested name for a class of the library,
    a source name for a class outside every namespace. *)
Example typeid_raw_names :
  typeid_raw_name ASTNode_class = "N9pegmatite7ASTNodeE"%string /\
  typeid_raw_name ASTContainer_class = "N9pegmatite12ASTContainerE"%string /\
  typeid_raw_name Term = "4Term"%string.
Proof. repeat split. Qed.

(** C8, evaluated: a [Neg] reduces over [0..5] with an addend on top of
    the stack.  Its [construct] reports and answers [false]; the callback
    pushes nothing and answers [false]; and the object it allocated is
    left as it is, never deleted. *)
Example failed_reduction_leaks_its_object :
  @BindAST _ NegClass (mkRange 0 5) (world [(mkRange 1 3, addend "2")]) =
    Done false
         (with_report (mkRange 1 3) "Expected Term, found Addend"
                      (world [(mkRange 1 3, addend "2")])) /\
  @BindAST_lambda _ NegClass (mkRange 0 5)
                  (world [(mkRange 1 3, addend "2")]) =
    Done (false, never_deleted None)
         (with_report (mkRange 1 3) "Expected Term, found Addend"
                      (world [(mkRange 1 3, addend "2")])).
Proof. split; reflexivity. Qed.

(** C9, evaluated: the engine finds no match, [parse] returns null, and
    the typed wrapper calls [get_as] through that null pointer instead
    of answering [false]. *)
Example typed_parse_of_no_result_is_undefined :
  parse no_match (world []) = Done None (world []) /\
  ASTParserDelegate_parse no_match Term (Some sum_node) (world []) =
    Aborted "node->get_as<T>()" (world []).
Proof. split; reflexivity. Qed.

End CalcFacts.

(** * Further properties *)

Lemma snoc_cases {A} (l : list A) :
  l = [] \/ exists pre e, l = pre ++ [e].
Proof.
  destruct l as [|x l] using rev_ind; [now left|right].
  now exists l, x.
Qed.

Lemma get_as_Some (T : ClassDecl) (n obj : ASTNode) :
  get_as T (Some n) = Some obj -> obj = n /\ isa_T T n = true.
Proof.
  unfold get_as. destruct (isa_T T n); [|discriminate].
  now intros [= <-].
Qed.

Lemma get_as_None (T : ClassDecl) (n : ASTNode) :
  get_as T (Some n) = None -> isa_T T n = false.
Proof. unfold get_as. now destruct (isa_T T n). Qed.

(** ** The downcast, continued *)

Lemma isa_ASTNode (c : ClassDecl) : isa c (classKind ASTNode_class) = true.
Proof.
  induction c as [|name id super IH]; [reflexivity|].
  cbn [isa]. rewrite IH. apply orb_true_r.
Qed.

(** X1: every node is an [ASTNode]: the downcast to the root class
    returns the node itself, whatever its dynamic class. *)
Theorem every_node_is_an_ASTNode (n : ASTNode) :
  get_as ASTNode_class (Some n) = Some n.
Proof. unfold get_as, isa_T. now rewrite isa_ASTNode. Qed.

Lemma ancestors_nested (C T : ClassDecl) :
  In T (ancestors C) -> incl (ancestors T) (ancestors C).
Proof.
  induction C as [|name id super IH]; simpl.
  - intros [<-|[]]. apply incl_refl.
  - intros [<-|H]; [apply incl_refl|].
    apply incl_tl. now apply IH.
Qed.

(** X2: a node of dynamic class [C] downcasts to every class on the chain
    of [C], and with a class [T] to every ancestor [U] of [T]; no
    assumption on the statics is needed for that direction. *)
Theorem downcast_reaches_every_ancestor (C T U : ClassDecl) (n : ASTNode) :
  dynamic_class n = C -> In T (ancestors C) -> In U (ancestors T) ->
  get_as T (Some n) = Some n /\ get_as U (Some n) = Some n.
Proof.
  intros <- HT HU.
  assert (Hup : forall A, In A (ancestors (dynamic_class n)) ->
                          get_as A (Some n) = Some n).
  { intros A HA. unfold get_as, isa_T.
    replace (isa (dynamic_class n) (classKind A)) with true; [reflexivity|].
    symmetry. apply isa_ancestors. now exists A. }
  split; [now apply Hup|].
  apply Hup. now apply (ancestors_nested _ T).
Qed.

(** ** Pointer slots, continued *)

(** X3: a required pointer slot that completes either claims the tail
    entry, which then lies within [r] and holds a [T], without a word to
    the error reporter; or it fails, keeps its value, leaves the stack as
    it was and reports exactly one message, at the range of the tail
    entry.  It never fails silently. *)
Theorem required_claim_is_sound (T : ClassDecl) (r : InputRange)
    (this this' : option ASTNode) (w w' : World) (b : bool) :
  ASTPtr_construct T false r this w = Done (b, this') w' ->
  (b = true /\
   exists rng n,
     stack w = stack w' ++ [(rng, n)] /\ outside rng r = false /\
     isa_T T n = true /\ this' = Some n /\
     reported w' = reported w /\ stderr w' = stderr w) \/
  (b = false /\ this' = this /\ stack w' = stack w /\
   stderr w' = stderr w /\
   exists e message,
     back (stack w) = Some e /\
     reported w' = reported w ++ [(fst e, message)]).
Proof.
  intros H. destruct (snoc_cases (stack w)) as [Hnil|(pre & e & Hst)].
  - rewrite (ASTPtr_empty_required T r w this Hnil) in H. discriminate.
  - rewrite (ASTPtr_tail T r w this pre e Hst false) in H.
    assert (Hback : back (stack w) = Some e) by (rewrite Hst; apply back_snoc).
    destruct (outside (fst e) r) eqn:Hout.
    + injection H as <- <- <-. right. repeat split.
      exists e. eexists. split; [exact Hback|reflexivity].
    + destruct (get_as T (Some (snd e))) as [obj|] eqn:Hcast.
      * apply get_as_Some in Hcast as [-> Hisa].
        injection H as <- <- <-. left. split; [reflexivity|].
        exists (fst e), (snd e). simpl.
        rewrite Hst. now destruct e.
      * injection H as <- <- <-. right. repeat split.
        exists e. eexists. split; [exact Hback|reflexivity].
Qed.

(** X4: an optional pointer slot always completes: it never runs into the
    assertion, never calls the error reporter, and either leaves the
    world as it was or claims the tail entry, which then lies within [r]
    and holds a [T]. *)
Theorem optional_claim_is_quiet (T : ClassDecl) (r : InputRange)
    (this : option ASTNode) (w : World) :
  exists b this' w',
    ASTPtr_construct T true r this w = Done (b, this') w' /\
    reported w' = reported w /\ stderr w' = stderr w /\
    (w' = w \/
     exists rng n,
       b = true /\ this' = Some n /\ stack w = stack w' ++ [(rng, n)] /\
       outside rng r = false /\ isa_T T n = true).
Proof.
  destruct (snoc_cases (stack w)) as [Hnil|(pre & e & Hst)].
  - rewrite (ASTPtr_empty_optional T r w this Hnil). eauto 10.
  - rewrite (ASTPtr_tail T r w this pre e Hst true).
    destruct (outside (fst e) r) eqn:Hout; [eauto 10|].
    destruct (get_as T (Some (snd e))) as [obj|] eqn:Hcast; [|eauto 10].
    apply get_as_Some in Hcast as [-> Hisa].
    do 3 eexists. split; [reflexivity|]. repeat split.
    right. exists (fst e), (snd e). simpl. rewrite Hst.
    now destruct e.
Qed.

(** ** Adopted children, continued *)

Lemma ASTChild_empty (T : ClassDecl) (r : InputRange) (w : World)
    (this : Body) :
  stack w = [] ->
  ASTChild_construct T r this w = Aborted "Stack must not be empty" w.
Proof.
  intros H. unfold ASTChild_construct, bind.
  now rewrite pop_empty_required.
Qed.

(** X5: an adopted child and a required pointer of the same class behave
    alike on every world: both die at the assertion, or both complete
    with the same answer and the same world; on success the child holds
    the state of the very node the pointer holds, on failure it keeps its
    own. *)
Theorem ASTChild_agrees_with_required_ASTPtr (T : ClassDecl)
    (r : InputRange) (self : Body) (ptr : option ASTNode) (w : World) :
  match ASTPtr_construct T false r ptr w, ASTChild_construct T r self w with
  | Done (b, ptr') w1, Done (b', self') w2 =>
      b = b' /\ w1 = w2 /\
      (b = true -> exists n, ptr' = Some n /\ self' = state_of n) /\
      (b = false -> ptr' = ptr /\ self' = self)
  | Aborted s1 w1, Aborted s2 w2 => s1 = s2 /\ w1 = w2
  | _, _ => False
  end.
Proof.
  destruct (snoc_cases (stack w)) as [Hnil|(pre & e & Hst)].
  - rewrite (ASTPtr_empty_required T r w ptr Hnil),
            (ASTChild_empty T r w self Hnil). now split.
  - rewrite (ASTPtr_tail T r w ptr pre e Hst false),
            (ASTChild_tail T r w self pre e Hst).
    destruct (outside (fst e) r).
    + repeat split; try discriminate; auto.
    + destruct (get_as T (Some (snd e))) as [obj|].
      * repeat split; try discriminate. intros _. now exists obj.
      * repeat split; try discriminate; auto.
Qed.

(** ** The list slot, continued *)

Lemma with_stack_twice (st st' : ASTStack) (w : World) :
  with_stack st (with_stack st' w) = with_stack st w.
Proof. reflexivity. Qed.

(** Every run of the list slot, split at the place where it stops. *)
Lemma ASTList_construct_splits (T : ClassDecl) (r : InputRange)
    (items : list ASTNode) (w : World) :
  exists b pre ents,
    stack w = pre ++ ents /\ Forall (claimable T r) ents /\
    Boundary T r pre b /\
    ASTList_construct T r items w =
    Done (b, map snd ents ++ items) (with_stack pre w).
Proof.
  destruct (stack_splits T r (stack w)) as (pre & ents & b & Hst & He & Hb).
  exists b, pre, ents. repeat split; try assumption.
  unfold ASTList_construct. run.
  now rewrite Hst, (ASTList_loop_run T r pre ents b He Hb).
Qed.

(** X6: a list slot always completes: it never runs into an assertion and
    never calls the error reporter, whatever it answers; the entries it
    takes off the tail of the stack all lie within [r] and hold a [T],
    and their nodes are put before the former items in stack order. *)
Theorem ASTList_construct_always_completes (T : ClassDecl) (r : InputRange)
    (items : list ASTNode) (w : World) :
  exists b items' w',
    ASTList_construct T r items w = Done (b, items') w' /\
    reported w' = reported w /\ stderr w' = stderr w /\
    exists ents,
      stack w = stack w' ++ ents /\ items' = map snd ents ++ items /\
      Forall (claimable T r) ents.
Proof.
  destruct (ASTList_construct_splits T r items w)
    as (b & pre & ents & Hst & He & _ & Hrun).
  exists b, (map snd ents ++ items), (with_stack pre w).
  repeat split; try assumption. now exists ents.
Qed.

(** X7: asking a list slot again right after a pass changes nothing: the
    second pass gives the same answer, takes no entry and leaves the list
    and the world as the first pass left them. *)
Theorem ASTList_construct_again (T : ClassDecl) (r : InputRange)
    (items items' : list ASTNode) (w w' : World) (b : bool) :
  ASTList_construct T r items w = Done (b, items') w' ->
  ASTList_construct T r items' w' = Done (b, items') w'.
Proof.
  destruct (ASTList_construct_splits T r items w)
    as (b0 & pre & ents & Hst & He & Hb & Hrun).
  intros H. rewrite Hrun in H. injection H as <- <- <-.
  pose proof (ASTList_loop_run T r pre [] b0 (Forall_nil _) Hb
                (map snd ents ++ items)) as Hloop.
  rewrite app_nil_r in Hloop. simpl in Hloop.
  unfold ASTList_construct. run. now rewrite Hloop.
Qed.

(** X8: a list slot answers [false] exactly when it stops at an entry
    that lies within [r] and does not hold a [T]; at the bottom of the
    stack and at an entry outside [r] it answers [true]. *)
Theorem ASTList_fails_exactly_at_another_class (T : ClassDecl)
    (r : InputRange) (items items' : list ASTNode) (w w' : World)
    (b : bool) :
  ASTList_construct T r items w = Done (b, items') w' ->
  (b = false <->
   exists e, back (stack w') = Some e /\ outside (fst e) r = false /\
             isa_T T (snd e) = false).
Proof.
  destruct (ASTList_construct_splits T r items w)
    as (b0 & pre & ents & Hst & He & Hb & Hrun).
  intros H. rewrite Hrun in H. injection H as <- <- <-. simpl.
  destruct Hb as [|below e Hout|below e Hin Hcast].
  - split; [discriminate|]. now intros (e & [=] & _).
  - rewrite back_snoc. split; [discriminate|].
    intros (e' & [= <-] & Hin & _). congruence.
  - rewrite back_snoc. split; [|reflexivity]. intros _.
    exists e. repeat split; [assumption|]. now apply get_as_None.
Qed.

(** ** What a slot does to the world *)

Lemma consumes_refl (w : World) : consumes w w.
Proof.
  repeat split; [exists []|exists []]; now rewrite app_nil_r.
Qed.

Lemma consumes_trans (w1 w2 w3 : World) :
  consumes w1 w2 -> consumes w2 w3 -> consumes w1 w3.
Proof.
  intros ((t1 & H1) & (s1 & R1) & E1) ((t2 & H2) & (s2 & R2) & E2).
  repeat split.
  - exists (t2 ++ t1). now rewrite H1, H2, app_assoc.
  - exists (s1 ++ s2). now rewrite R2, R1, app_assoc.
  - congruence.
Qed.

Lemma consumes_report (w : World) (range : InputRange) (message : string) :
  consumes w (with_report range message w).
Proof.
  repeat split; simpl; [exists []; now rewrite app_nil_r|eauto].
Qed.

Lemma consumes_stack (w : World) (pre taken : ASTStack) :
  stack w = pre ++ taken -> consumes w (with_stack pre w).
Proof.
  intros H. repeat split; simpl; [eauto|exists []; now rewrite app_nil_r].
Qed.

(** A slot that completes has only consumed, is still the same field, and
    holds what its class allows if it did before. *)
Lemma member_frame (r : InputRange) (m m' : ASTMember) (w w' : World)
    (b : bool) :
  construct r m w = Done (b, m') w' ->
  consumes w w' /\ same_slot m m' /\ (well_typed m -> well_typed m').
Proof.
  destruct m as [T Optional ptr|T self|T items];
    unfold construct, ASTMember_construct, bind.
  - destruct (snoc_cases (stack w)) as [Hnil|(pre & e & Hst)].
    + destruct Optional.
      * rewrite (ASTPtr_empty_optional T r w ptr Hnil). unfold ret.
        intros [= <- <- <-]. simpl. auto using consumes_refl.
      * now rewrite (ASTPtr_empty_required T r w ptr Hnil).
    + rewrite (ASTPtr_tail T r w ptr pre e Hst Optional).
      destruct (outside (fst e) r).
      * destruct Optional; unfold ret; intros [= <- <- <-]; simpl;
          auto using consumes_refl, consumes_report.
      * destruct (get_as T (Some (snd e))) as [obj|] eqn:Hcast.
        -- apply get_as_Some in Hcast as [-> Hisa]. unfold ret.
           intros [= <- <- <-]. simpl.
           eauto using consumes_stack.
        -- destruct Optional; unfold ret; intros [= <- <- <-]; simpl;
             auto using consumes_refl, consumes_report.
  - destruct (snoc_cases (stack w)) as [Hnil|(pre & e & Hst)].
    + now rewrite (ASTChild_empty T r w self Hnil).
    + rewrite (ASTChild_tail T r w self pre e Hst).
      destruct (outside (fst e) r).
      * unfold ret. intros [= <- <- <-]. simpl.
        auto using consumes_report.
      * destruct (get_as T (Some (snd e))) as [obj|]; unfold ret;
          intros [= <- <- <-]; simpl;
          eauto using consumes_stack, consumes_report.
  - destruct (ASTList_construct_splits T r items w)
      as (b0 & pre & ents & Hst & He & _ & Hrun).
    rewrite Hrun. unfold ret. intros [= <- <- <-]. simpl.
    split; [apply (consumes_stack w pre ents Hst)|]. split; [reflexivity|].
    intros Hitems. apply Forall_app. split; [|assumption].
      apply Forall_map. eapply Forall_impl; [|exact He].
      now intros e [_ Hisa].
Qed.

(** A slot dies only at the assertion of a required claim, on an empty
    stack, before it has done anything. *)
Lemma member_abort (r : InputRange) (m : ASTMember) (w w' : World)
    (s : string) :
  construct r m w = Aborted s w' ->
  s = "Stack must not be empty"%string /\ w' = w /\ stack w = [] /\
  ((exists T ptr, m = ASTPtr T false ptr) \/
   (exists T self, m = ASTChild T self)).
Proof.
  destruct m as [T Optional ptr|T self|T items];
    unfold construct, ASTMember_construct, bind.
  - destruct (snoc_cases (stack w)) as [Hnil|(pre & e & Hst)].
    + destruct Optional.
      * now rewrite (ASTPtr_empty_optional T r w ptr Hnil).
      * rewrite (ASTPtr_empty_required T r w ptr Hnil).
        intros [= <- <-]. eauto 10.
    + rewrite (ASTPtr_tail T r w ptr pre e Hst Optional).
      destruct (outside (fst e) r); [now destruct Optional|].
      destruct (get_as T (Some (snd e))); now destruct Optional.
  - destruct (snoc_cases (stack w)) as [Hnil|(pre & e & Hst)].
    + rewrite (ASTChild_empty T r w self Hnil).
      intros [= <- <-]. eauto 10.
    + rewrite (ASTChild_tail T r w self pre e Hst).
      destruct (outside (fst e) r); [discriminate|].
      now destruct (get_as T (Some (snd e))).
  - destruct (ASTList_construct_splits T r items w)
      as (b0 & pre & ents & _ & _ & _ & Hrun).
    now rewrite Hrun.
Qed.

(** X9: on an empty stack a required pointer and an adopted child die at
    [assert(!st.empty())] with the world untouched, while a list slot
    answers [true] and stays as it is. *)
Theorem required_slots_starve_on_an_empty_stack (r : InputRange)
    (T : ClassDecl) (ptr : option ASTNode) (self : Body)
    (items : list ASTNode) (w : World) :
  stack w = [] ->
  construct r (ASTPtr T false ptr) w = Aborted "Stack must not be empty" w /\
  construct r (ASTChild T self) w = Aborted "Stack must not be empty" w /\
  construct r (ASTList T items) w = Done (true, ASTList T items) w.
Proof.
  intros Hnil. unfold construct, ASTMember_construct, bind.
  rewrite (ASTPtr_empty_required T r w ptr Hnil),
          (ASTChild_empty T r w self Hnil).
  repeat split.
  unfold ASTList_construct. run.
  now rewrite Hnil, ASTList_loop_empty, <- Hnil, with_stack_same.
Qed.

(** ** Containers of the library's slots *)

Lemma same_slot_refl (m : ASTMember) : same_slot m m.
Proof. destruct m; simpl; auto. Qed.

Lemma same_slot_trans (m1 m2 m3 : ASTMember) :
  same_slot m1 m2 -> same_slot m2 m3 -> same_slot m1 m3.
Proof.
  destruct m1, m2, m3; simpl; try tauto; intuition congruence.
Qed.

Lemma same_slots_refl (fs : list ASTMember) : Forall2 same_slot fs fs.
Proof. induction fs; constructor; auto using same_slot_refl. Qed.

Lemma same_slots_trans (fs1 fs2 fs3 : list ASTMember) :
  Forall2 same_slot fs1 fs2 -> Forall2 same_slot fs2 fs3 ->
  Forall2 same_slot fs1 fs3.
Proof.
  intros H12. revert fs3.
  induction H12 as [|m1 m2 l1 l2 Hm Hl IH]; intros fs3 H23;
    inversion H23; subst; constructor; eauto using same_slot_trans.
Qed.

Lemma assign_length {M} (fs : list M) (member : nat) (m : M) :
  length (assign fs member m) = length fs.
Proof.
  revert member. induction fs as [|f fs IH]; intros [|k]; simpl; auto.
Qed.

Lemma assign_same_slot (fs : list ASTMember) (member : nat)
    (m m' : ASTMember) :
  nth_error fs member = Some m -> same_slot m m' ->
  Forall2 same_slot fs (assign fs member m').
Proof.
  revert member. induction fs as [|f fs IH]; intros [|k]; simpl;
    try discriminate.
  - intros [= ->] H. constructor; auto using same_slots_refl.
  - intros Hnth H. constructor; auto using same_slot_refl.
Qed.

Lemma assign_well_typed (fs : list ASTMember) (member : nat)
    (m' : ASTMember) :
  Forall well_typed fs -> well_typed m' ->
  Forall well_typed (assign fs member m').
Proof.
  revert member. induction fs as [|f fs IH]; intros [|k] Hfs Hm; simpl;
    inversion Hfs; subst; constructor; auto.
Qed.

(** Asking the slots of [order] one after the other: what a completed
    sequence has done. *)
Lemma claim_in_order_frame (r : InputRange) (order : list nat) :
  forall fs w answers fs' w',
    claim_in_order r order fs w = Done (answers, fs') w' ->
    consumes w w' /\ Forall2 same_slot fs fs' /\
    (Forall well_typed fs -> Forall well_typed fs').
Proof.
  induction order as [|member later IH]; intros fs w answers fs' w'; simpl.
  - unfold ret. intros [= <- <- <-].
    auto using consumes_refl, same_slots_refl.
  - destruct (nth_error fs member) as [m|] eqn:Hnth; [|discriminate].
    unfold bind.
    destruct (construct r m w) as [[b m'] w1|] eqn:Hm; [|discriminate].
    destruct (claim_in_order r later _ w1) as [[rest fs1] w2|] eqn:Hrest;
      [|discriminate].
    unfold ret. simpl. intros [= <- <- <-].
    apply member_frame in Hm as (Hc1 & Hs1 & Ht1).
    apply IH in Hrest as (Hc2 & Hs2 & Ht2).
    repeat split.
    + destruct Hc1 as ((t1 & H1) & _), Hc2 as ((t2 & H2) & _).
      exists (t2 ++ t1). now rewrite H1, H2, app_assoc.
    + destruct Hc1 as (_ & (s1 & R1) & _), Hc2 as (_ & (s2 & R2) & _).
      exists (s1 ++ s2). now rewrite R2, R1, app_assoc.
    + destruct Hc1 as (_ & _ & E1), Hc2 as (_ & _ & E2). congruence.
    + eapply same_slots_trans; [|exact Hs2].
      eapply assign_same_slot; eassumption.
    + intros Hfs. apply Ht2. apply assign_well_typed; [assumption|].
      apply Ht1. eapply Forall_forall; [exact Hfs|].
      eapply nth_error_In. exact Hnth.
Qed.

(** A sequence over valid member pointers dies only at the assertion of
    a required slot, on an empty stack. *)
Lemma claim_in_order_abort (r : InputRange) (order : list nat) :
  forall fs w s w',
    Forall (fun member => member < length fs) order ->
    claim_in_order r order fs w = Aborted s w' ->
    s = "Stack must not be empty"%string /\ stack w' = [] /\
    consumes w w'.
Proof.
  induction order as [|member later IH]; intros fs w s w' Hvalid; simpl.
  - discriminate.
  - inversion Hvalid as [|? ? Hlt Hlater]; subst.
    destruct (nth_error fs member) as [m|] eqn:Hnth;
      [|apply nth_error_None in Hnth; lia].
    unfold bind.
    destruct (construct r m w) as [[b m'] w1|s1 w1] eqn:Hm.
    + destruct (claim_in_order r later _ w1) as [[rest fs1] w2|s2 w2]
        eqn:Hrest; [discriminate|].
      intros [= <- <-]. apply IH in Hrest as (Hs & Hnil & Hc).
      * apply member_frame in Hm as (Hc1 & _).
        eauto using consumes_trans.
      * now rewrite assign_length.
    + intros [= <- <-]. apply member_abort in Hm as (-> & -> & Hnil & _).
      auto using consumes_refl.
Qed.

Lemma ASTContainer_construct_unfold {M} `{Constructible M} (r : InputRange)
    (this : ASTContainer M) (w : World) :
  ASTContainer_construct r this w =
  (rest <- claim_in_order r (rev (members this)) (fields this) ;;
   ret (fold_left orb (map snd (fst rest)) true,
        mkContainer (snd rest) [])) w.
Proof.
  unfold ASTContainer_construct, bind at 1.
  rewrite construct_loop_in_order by lia.
  rewrite firstn_all. unfold bind, ret.
  now destruct (claim_in_order r _ _ w) as [[rest fs1] w1|].
Qed.

(** X10: a construction pass of a container never answers [false]: when
    it completes, its answer is [true], whatever its member slots
    answered. *)
Theorem container_pass_never_answers_false {M} `{Constructible M}
    (r : InputRange) (this this' : ASTContainer M) (w w' : World)
    (b : bool) :
  ASTContainer_construct r this w = Done (b, this') w' -> b = true.
Proof. apply ASTContainer_construct_answer. Qed.

(** X11: a completed pass of a container has only consumed: it took
    entries off the tail of the stack, added messages to those reported,
    and left [stderr] alone; the container has the fields it had, each
    of the same kind and class. *)
Theorem container_pass_only_consumes (r : InputRange)
    (this this' : ASTContainer ASTMember) (w w' : World) (b : bool) :
  ASTContainer_construct r this w = Done (b, this') w' ->
  consumes w w' /\ Forall2 same_slot (fields this) (fields this').
Proof.
  rewrite ASTContainer_construct_unfold. unfold bind, ret.
  destruct (claim_in_order r _ _ w) as [[answers fs1] w1|] eqn:Hpass;
    [|discriminate].
  simpl. intros [= <- <- <-]. simpl.
  apply claim_in_order_frame in Hpass as (Hc & Hs & _). now split.
Qed.

(** X12: the pointers a container holds after a pass are safe: if every
    slot held objects of its own class before, and a fresh slot holds
    none, then so does every slot afterwards. *)
Theorem container_pass_keeps_slots_well_typed (r : InputRange)
    (this this' : ASTContainer ASTMember) (w w' : World) (b : bool) :
  Forall well_typed (fields this) ->
  ASTContainer_construct r this w = Done (b, this') w' ->
  Forall well_typed (fields this').
Proof.
  intros Hfs. rewrite ASTContainer_construct_unfold. unfold bind, ret.
  destruct (claim_in_order r _ _ w) as [[answers fs1] w1|] eqn:Hpass;
    [|discriminate].
  simpl. intros [= <- <- <-]. simpl.
  apply claim_in_order_frame in Hpass as (_ & _ & Ht). now apply Ht.
Qed.

(** X13: a pass of a freshly constructed container dies in one way only:
    a required slot met an empty stack and ran into
    [assert(!st.empty())]; up to then the pass has only consumed. *)
Theorem fresh_container_dies_only_of_starvation (r : InputRange)
    (declared : list ASTMember) (w w' : World) (s : string) :
  ASTContainer_construct r (new_container declared) w = Aborted s w' ->
  s = "Stack must not be empty"%string /\ stack w' = [] /\ consumes w w'.
Proof.
  rewrite ASTContainer_construct_unfold. unfold bind.
  destruct (claim_in_order r _ _ w) as [[answers fs1] w1|s1 w1] eqn:Hpass;
    [discriminate|].
  intros [= <- <-]. eapply claim_in_order_abort; [|exact Hpass].
  apply Forall_rev. apply new_container_pointers.
Qed.

(** X14: a container that declares a required [ASTPtr<T>] and then an
    [ASTList<T>] of the same class starves its pointer when every entry
    on the stack can go to the list: the list, asked first, takes them
    all, and the pointer runs into the assertion on the emptied stack. *)
Theorem pointer_before_list_of_its_class_starves (T : ClassDecl)
    (r : InputRange) (w : World) :
  Forall (claimable T r) (stack w) ->
  ASTContainer_construct r
    (new_container [ASTPtr T false None; ASTList T []]) w =
  Aborted "Stack must not be empty" (with_stack [] w).
Proof.
  intros Hall.
  pose proof (ASTList_loop_run T r [] (stack w) true Hall
                (stack_used_up T r) []) as Hloop.
  simpl in Hloop.
  assert (Hlist : construct r (ASTList T []) w =
                  Done (true, ASTList T (map snd (stack w) ++ []))
                       (with_stack [] w)).
  { unfold construct, ASTMember_construct, ASTList_construct. run.
    now rewrite Hloop. }
  unfold ASTContainer_construct, bind. simpl.
  unfold bind. rewrite Hlist. reflexivity.
Qed.

(** ** The reduction callback, continued *)

(** X15: the callback of a container class never signals no-match: when
    it completes it answers [true], and the stack then is what the pass
    left of the old one, with the new node on top under the range of the
    reduction; the messages reported may have grown, [stderr] has not
    changed. *)
Theorem container_callback_always_matches (cls : ClassDecl)
    (declared : list ASTMember) (range : InputRange) (w w' : World)
    (b : bool) :
  @BindAST _ (ContainerClass cls declared) range w = Done b w' ->
  b = true /\
  exists below taken node,
    stack w = below ++ taken /\ stack w' = below ++ [(range, node)] /\
    dynamic_class node = cls /\
    (exists said, reported w' = reported w ++ said) /\
    stderr w' = stderr w.
Proof.
  unfold BindAST, bind. simpl.
  change (@construct _ ASTContainer_construct range
            (new_container declared) w)
    with (ASTContainer_construct range (new_container declared) w).
  destruct (ASTContainer_construct range (new_container declared) w)
    as [[b0 obj] w1|] eqn:Hpass; [|discriminate].
  pose proof (ASTContainer_construct_answer _ _ _ _ _ _ Hpass) as ->.
  rewrite ASTContainer_construct_unfold in Hpass. unfold bind, ret in Hpass.
  destruct (claim_in_order range _ _ w) as [[answers fs1] w2|] eqn:Hclaims;
    [|discriminate].
  injection Hpass as _ <- <-.
  apply claim_in_order_frame in Hclaims as (((taken & Hst) & Hrep & Herr) & _).
  simpl. run. intros [= <- <-]. split; [reflexivity|].
  exists (stack w2), taken. eexists. simpl. repeat split; eauto.
Qed.

(** X16: what the callback pushes, a slot claims back: after a reduction
    whose [construct] answered [true], a pointer slot of a class the node
    belongs to, asked over a range that contains the range of the
    reduction, takes that very node and leaves the world as [construct]
    had left it. *)
Theorem pushed_node_is_claimed_back (X : Type) `{ASTNodeSubclass X}
    (T : ClassDecl) (Optional : bool) (range r : InputRange)
    (this : option ASTNode) (obj : X) (w w1 : World) :
  construct range new_T w = Done (true, obj) w1 ->
  outside range r = false ->
  isa_T T (as_ASTNode obj) = true ->
  (matched <- BindAST X range ;; ASTPtr_construct T Optional r this) w =
  Done (true, Some (as_ASTNode obj)) w1.
Proof.
  intros Hc Hin Hisa. unfold BindAST, bind at 1 2. rewrite Hc. run.
  rewrite (ASTPtr_tail T r
             (with_stack (stack w1 ++ [(range, as_ASTNode obj)]) w1)
             this (stack w1) (range, as_ASTNode obj) eq_refl Optional).
  simpl. rewrite Hin. unfold get_as. rewrite Hisa.
  now rewrite with_stack_twice, with_stack_same.
Qed.


(** ** The top-level driver, continued *)

Section MoreParseFacts.

Variable engine : Op bool.
Variable w : World.

(** X18: when the engine reports success and has left no entry at all,
    [parse] returns nothing: the run ends at [assert(st.size() == 1)],
    with no line written to [stderr]. *)
Theorem parse_without_entries_dies (w1 : World) :
  engine (with_stack [] w) = Done true w1 -> stack w1 = [] ->
  parse engine w = Aborted "st.size() == 1" w1.
Proof.
  intros He Hnil. unfold parse. run. rewrite He. simpl.
  now rewrite Hnil.
Qed.

(** X19: [parse] answers in two ways only: with null, and then the engine
    reported failure; or with a node, and then the engine reported
    success and that node is the one entry of the stack.  In both cases
    the world is the one the engine left: nothing was written to
    [stderr]. *)
Theorem parse_result_is_the_sole_entry (result : option ASTNode)
    (w1 : World) :
  parse engine w = Done result w1 ->
  (result = None /\ engine (with_stack [] w) = Done false w1) \/
  (exists rng n,
      result = Some n /\ engine (with_stack [] w) = Done true w1 /\
      stack w1 = [(rng, n)]).
Proof.
  unfold parse. run.
  destruct (engine (with_stack [] w)) as [matched w2|]; [|discriminate].
  destruct matched; simpl.
  - destruct (1 <? length (stack w2)) eqn:Hmany.
    + rewrite dump_lines.
      destruct (length (stack w2) =? 1) eqn:Hone; [|discriminate].
      apply Nat.ltb_lt in Hmany. apply Nat.eqb_eq in Hone. lia.
    + destruct (length (stack w2) =? 1) eqn:Hone; [|discriminate].
      intros [= <- <-]. right.
      destruct (stack w2) as [|[rng n] [|e2 rest]]; try discriminate.
      exists rng, n. auto.
  - intros [= <- <-]. now left.
Qed.

(** X20: when the typed wrapper answers [true], the caller's pointer
    holds the root that [parse] returned, and that root is a [T]; when it
    answers [false], the caller's pointer is the one passed in, and the
    root, if any, is not a [T]. *)
Theorem typed_parse_is_sound (T : ClassDecl) (ast ast' : option ASTNode)
    (b : bool) (w1 : World) :
  ASTParserDelegate_parse engine T ast w = Done (b, ast') w1 ->
  (b = true /\
   exists n, ast' = Some n /\ isa_T T n = true /\
             parse engine w = Done (Some n) w1) \/
  (b = false /\ ast' = ast /\
   exists node, parse engine w = Done node w1 /\ get_as T node = None).
Proof.
  unfold ASTParserDelegate_parse, bind, arrow.
  destruct (parse engine w) as [node w2|]; [|discriminate].
  destruct node as [n|]; simpl; [|discriminate].
  unfold isa_T. destruct (isa (dynamic_class n) (classKind T)) eqn:Hisa;
    simpl; unfold ret; intros [= <- <- <-].
  - left. split; [reflexivity|]. now exists n.
  - right. repeat split. exists (Some n). split; [reflexivity|].
    unfold get_as, isa_T. now rewrite Hisa.
Qed.

End MoreParseFacts.

(** ** The rule table *)

Lemma find_store_handler (hs : list (Rule * parse_proc)) (k k' : Rule)
    (p : parse_proc) :
  find_handler (store_handler hs k p) k' =
  if k =? k' then Some p else find_handler hs k'.
Proof.
  induction hs as [|[k0 p0] hs IH]; simpl.
  - reflexivity.
  - destruct (k0 =? k) eqn:E0; simpl.
    + apply Nat.eqb_eq in E0 as ->.
      now destruct (k =? k').
    + rewrite IH. destruct (k0 =? k') eqn:E1; [|reflexivity].
      apply Nat.eqb_eq in E1 as ->. now rewrite Nat.eqb_sym, E0.
Qed.

Lemma store_handler_keys (hs : list (Rule * parse_proc)) (k : Rule)
    (p : parse_proc) :
  NoDup (map fst hs) ->
  NoDup (map fst (store_handler hs k p)) /\
  forall k', In k' (map fst (store_handler hs k p)) <->
             k' = k \/ In k' (map fst hs).
Proof.
  induction hs as [|[k0 p0] hs IH]; simpl; intros Hnd.
  - split; [repeat constructor; auto|]. intuition.
  - inversion Hnd as [|? ? Hnotin Hrest]; subst.
    destruct (k0 =? k) eqn:E0; simpl.
    + apply Nat.eqb_eq in E0 as ->. split; [now constructor|]. intuition.
    + destruct (IH Hrest) as [Hnd' Hin']. split.
      * constructor; [|assumption]. rewrite Hin'. intros [->|Hin].
        -- now rewrite Nat.eqb_refl in E0.
        -- contradiction.
      * intros k'. rewrite Hin'. intuition.
Qed.

(** X21: looking up a rule after a [BindAST] field has bound rule [r]:
    for [r] itself the callback found is the one just bound, whatever was
    bound to [r] before; for any other rule the answer is what it was. *)
Theorem latest_binding_is_found (X : Type) `{ASTNodeSubclass X}
    (r r' : Rule) (current : ASTParserDelegate) :
  get_parse_proc (BindAST_new X r current) r' =
  if r =? r' then Some (BindAST X) else get_parse_proc current r'.
Proof.
  unfold get_parse_proc, BindAST_new, bind_parse_proc, set_parse_proc.
  simpl. apply find_store_handler.
Qed.

Lemma find_binding_app (f : Rule * parse_proc -> bool)
    (l1 l2 : list (Rule * parse_proc)) :
  find f (l1 ++ l2) =
  match find f l1 with Some b => Some b | None => find f l2 end.
Proof.
  induction l1 as [|b l1 IH]; simpl; [reflexivity|].
  now destruct (f b).
Qed.

Lemma fold_bindings (bindings : list (Rule * parse_proc)) (r : Rule) :
  forall current,
    get_parse_proc
      (fold_left (fun current b => bind_parse_proc (fst b) (snd b) current)
                 bindings current) r =
    match find (fun b => fst b =? r) (rev bindings) with
    | Some b => Some (snd b)
    | None => get_parse_proc current r
    end.
Proof.
  induction bindings as [|b rest IH]; intros current; simpl.
  - reflexivity.
  - rewrite IH, find_binding_app. unfold Rule in *.
    destruct (find (fun b0 => fst b0 =? r) (rev rest)); [reflexivity|].
    unfold get_parse_proc, bind_parse_proc, set_parse_proc. simpl.
    rewrite find_store_handler. now destruct (fst b =? r).
Qed.

Lemma fold_bindings_keys (bindings : list (Rule * parse_proc)) :
  forall current,
    NoDup (map fst (handlers current)) ->
    NoDup (map fst (handlers
      (fold_left (fun current b => bind_parse_proc (fst b) (snd b) current)
                 bindings current))).
Proof.
  induction bindings as [|b rest IH]; intros current Hnd; simpl.
  - assumption.
  - apply IH. unfold bind_parse_proc, set_parse_proc. simpl.
    now apply store_handler_keys.
Qed.

(** X22: in a delegate whose [BindAST] fields bind rules in declaration
    order, the callback of a rule is the one of the last field that names
    the rule, and null when no field names it; the table holds one
    handler per rule at most, so an earlier binding of the same rule is
    gone. *)
Theorem last_binding_wins (bindings : list (Rule * parse_proc))
    (r : Rule) :
  get_parse_proc (new_delegate bindings) r =
    option_map snd (find (fun b => fst b =? r) (rev bindings)) /\
  NoDup (map fst (handlers (new_delegate bindings))).
Proof.
  unfold new_delegate. split.
  - rewrite fold_bindings. unfold Rule in *.
    now destruct (find (fun b => fst b =? r) (rev bindings)).
  - apply fold_bindings_keys. constructor.
Qed.

(** * The small grammar at work, continued *)

Module MoreCalcFacts.

Import Calc.

Lemma downcast_reaches_every_ancestor_witness :
  get_as ASTContainer_class (Some sum_node) = Some sum_node /\
  get_as ASTNode_class (Some sum_node) = Some sum_node.
Proof.
  apply (downcast_reaches_every_ancestor Sum ASTContainer_class
           ASTNode_class sum_node).
  - reflexivity.
  - simpl. auto.
  - simpl. auto.
Defined.

(** A required [Term] slot at an addend: one message, at the range of the
    addend. *)
Lemma required_claim_is_sound_witness :
  exists e message,
    back [(mkRange 1 3, addend "2")] = Some e /\
    [(mkRange 1 3, "Expected Term, found Addend"%string)] =
    [] ++ [(fst e, message)].
Proof.
  destruct (required_claim_is_sound Term (mkRange 0 5) None None
              (world [(mkRange 1 3, addend "2")])
              (with_report (mkRange 1 3) "Expected Term, found Addend"
                           (world [(mkRange 1 3, addend "2")]))
              false eq_refl)
    as [(Hb & _)|(_ & _ & _ & _ & Hreport)].
  - discriminate Hb.
  - exact Hreport.
Defined.

Lemma ASTList_construct_again_witness :
  ASTList_construct Addend (mkRange 1 5) [] (world st_1_2_3) =
    Done (true, [addend "2"; addend "3"])
         (world [(mkRange 0 1, term "1")]) /\
  ASTList_construct Addend (mkRange 1 5) [addend "2"; addend "3"]
                    (world [(mkRange 0 1, term "1")]) =
    Done (true, [addend "2"; addend "3"])
         (world [(mkRange 0 1, term "1")]).
Proof.
  split; [reflexivity|].
  apply (ASTList_construct_again Addend (mkRange 1 5) []
           [addend "2"; addend "3"] (world st_1_2_3)
           (world [(mkRange 0 1, term "1")]) true).
  reflexivity.
Defined.

(** Over the whole of ["1+2+3"] the list of addends stops at the term,
    which lies within the range and is no addend: the answer is [false]. *)
Lemma ASTList_fails_exactly_at_another_class_witness :
  ASTList_construct Addend (mkRange 0 5) [] (world st_1_2_3) =
    Done (false, [addend "2"; addend "3"])
         (world [(mkRange 0 1, term "1")]) /\
  exists e,
    back [(mkRange 0 1, term "1")] = Some e /\
    outside (fst e) (mkRange 0 5) = false /\
    isa_T Addend (snd e) = false.
Proof.
  split; [reflexivity|].
  apply (ASTList_fails_exactly_at_another_class Addend (mkRange 0 5) []
           [addend "2"; addend "3"] (world st_1_2_3)
           (world [(mkRange 0 1, term "1")]) false).
  - reflexivity.
  - reflexivity.
Defined.

Lemma required_slots_starve_on_an_empty_stack_witness :
  construct (mkRange 0 5) (ASTPtr Term false None) (world []) =
    Aborted "Stack must not be empty" (world []) /\
  construct (mkRange 0 5) (ASTChild Term (Text "")) (world []) =
    Aborted "Stack must not be empty" (world []) /\
  construct (mkRange 0 5) (ASTList Term []) (world []) =
    Done (true, ASTList Term []) (world []).
Proof.
  apply (required_slots_starve_on_an_empty_stack (mkRange 0 5) Term None
           (Text "") [] (world [])).
  reflexivity.
Defined.

(** The world and the fields after a pass of a fresh [Sum] over
    ["1+2+3"]. *)
Lemma container_pass_never_answers_false_witness :
  ASTContainer_construct (mkRange 0 5) (new_container Sum_fields)
                         (world st_1_2_3) =
    Done (true,
          mkContainer [ASTPtr Term false (Some (term "1"));
                       ASTList Addend [addend "2"; addend "3"]] [])
         (world []) /\
  true = true.
Proof.
  split; [reflexivity|].
  apply (container_pass_never_answers_false (mkRange 0 5)
           (new_container Sum_fields)
           (mkContainer [ASTPtr Term false (Some (term "1"));
                         ASTList Addend [addend "2"; addend "3"]] [])
           (world st_1_2_3) (world []) true).
  reflexivity.
Defined.

Lemma container_pass_only_consumes_witness :
  consumes (world st_1_2_3) (world []) /\
  Forall2 same_slot Sum_fields
          [ASTPtr Term false (Some (term "1"));
           ASTList Addend [addend "2"; addend "3"]].
Proof.
  apply (container_pass_only_consumes (mkRange 0 5)
           (new_container Sum_fields)
           (mkContainer [ASTPtr Term false (Some (term "1"));
                         ASTList Addend [addend "2"; addend "3"]] [])
           (world st_1_2_3) (world []) true).
  reflexivity.
Defined.

Lemma container_pass_keeps_slots_well_typed_witness :
  Forall well_typed
         [ASTPtr Term false (Some (term "1"));
          ASTList Addend [addend "2"; addend "3"]].
Proof.
  apply (container_pass_keeps_slots_well_typed (mkRange 0 5)
           (new_container Sum_fields)
           (mkContainer [ASTPtr Term false (Some (term "1"));
                         ASTList Addend [addend "2"; addend "3"]] [])
           (world st_1_2_3) (world []) true).
  - repeat constructor.
  - reflexivity.
Defined.

(** A fresh [Sum] on an empty stack: the list answers, the pointer dies. *)
Lemma fresh_container_dies_only_of_starvation_witness :
  ASTContainer_construct (mkRange 0 5) (new_container Sum_fields)
                         (world []) =
    Aborted "Stack must not be empty" (world []) /\
  "Stack must not be empty"%string = "Stack must not be empty"%string /\
  stack (world []) = [] /\ consumes (world []) (world []).
Proof.
  split; [reflexivity|].
  apply (fresh_container_dies_only_of_starvation (mkRange 0 5) Sum_fields
           (world []) (world []) "Stack must not be empty").
  reflexivity.
Defined.

(** [Sum := Term ('+' Term)*] with [ASTPtr<Term> lhs; ASTList<Term> rhs]
    over three terms: [rhs] takes the three, [lhs] starves. *)
Lemma pointer_before_list_of_its_class_starves_witness :
  ASTContainer_construct (mkRange 0 5)
    (new_container [ASTPtr Term false None; ASTList Term []])
    (world [(mkRange 0 1, term "1"); (mkRange 2 3, term "2");
            (mkRange 4 5, term "3")]) =
  Aborted "Stack must not be empty" (world []).
Proof.
  apply (pointer_before_list_of_its_class_starves Term (mkRange 0 5)
           (world [(mkRange 0 1, term "1"); (mkRange 2 3, term "2");
                   (mkRange 4 5, term "3")])).
  repeat constructor.
Defined.

Lemma container_callback_always_matches_witness :
  true = true /\
  exists below taken node,
    stack (world st_1_2_3) = below ++ taken /\
    stack (world [(mkRange 0 5,
                   Object Sum
                     (Fields [ASTPtr Term false (Some (term "1"));
                              ASTList Addend [addend "2"; addend "3"]]))]) =
      below ++ [(mkRange 0 5, node)] /\
    dynamic_class node = Sum /\
    (exists said,
        reported (world [(mkRange 0 5,
                          Object Sum
                            (Fields [ASTPtr Term false (Some (term "1"));
                                     ASTList Addend
                                       [addend "2"; addend "3"]]))]) =
        reported (world st_1_2_3) ++ said) /\
    stderr (world [(mkRange 0 5,
                    Object Sum
                      (Fields [ASTPtr Term false (Some (term "1"));
                               ASTList Addend [addend "2"; addend "3"]]))]) =
    stderr (world st_1_2_3).
Proof.
  apply (container_callback_always_matches Sum Sum_fields (mkRange 0 5)
           (world st_1_2_3)
           (world [(mkRange 0 5,
                    Object Sum
                      (Fields [ASTPtr Term false (Some (term "1"));
                               ASTList Addend [addend "2"; addend "3"]]))])
           true).
  reflexivity.
Defined.

(** [Sum] reduces over ["1+2+3"], and a slot for containers over the same
    range takes the new node: the stack is empty again. *)
Lemma pushed_node_is_claimed_back_witness :
  (matched <- BindAST SumObject (mkRange 0 5) ;;
   ASTPtr_construct ASTContainer_class false (mkRange 0 5) None)
    (world st_1_2_3) =
  Done (true,
        Some (Object Sum
                (Fields [ASTPtr Term false (Some (term "1"));
                         ASTList Addend [addend "2"; addend "3"]])))
       (world []).
Proof.
  exact (pushed_node_is_claimed_back SumObject ASTContainer_class false
           (mkRange 0 5) (mkRange 0 5) None
           (mkContainer [ASTPtr Term false (Some (term "1"));
                         ASTList Addend [addend "2"; addend "3"]] [])
           (world st_1_2_3) (world []) eq_refl eq_refl eq_refl).
Defined.


Lemma parse_without_entries_dies_witness :
  parse (fun w => Done true w) (world []) =
  Aborted "st.size() == 1" (world []).
Proof.
  apply (parse_without_entries_dies (fun w => Done true w) (world [])
           (world [])).
  - reflexivity.
  - reflexivity.
Defined.

Lemma parse_result_is_the_sole_entry_witness :
  (Some (term "1") = None /\
   one_term (with_stack [] (world [])) =
     Done false (world [(mkRange 0 1, term "1")])) \/
  (exists rng n,
      Some (term "1") = Some n /\
      one_term (with_stack [] (world [])) =
        Done true (world [(mkRange 0 1, term "1")]) /\
      stack (world [(mkRange 0 1, term "1")]) = [(rng, n)]).
Proof.
  apply (parse_result_is_the_sole_entry one_term (world [])
           (Some (term "1")) (world [(mkRange 0 1, term "1")])).
  reflexivity.
Defined.

Lemma typed_parse_is_sound_witness :
  exists n,
    Some (term "1") = Some n /\ isa_T Term n = true /\
    parse one_term (world []) =
      Done (Some n) (world [(mkRange 0 1, term "1")]).
Proof.
  destruct (typed_parse_is_sound one_term (world []) Term None
              (Some (term "1")) true (world [(mkRange 0 1, term "1")])
              eq_refl)
    as [(_ & Hroot)|(Hb & _)].
  - exact Hroot.
  - discriminate Hb.
Defined.

End MoreCalcFacts.
